(** * csv2xlsx: sheet titles, dialect choice, file discovery, workbook building

    A shallow embedding of [csv2xlsx.py] and the properties of its
    functions.

    - Python [str] values are Rocq strings whose characters stand for the
      code points below 256; Python integers are [Z] or [N]; the
      used-names [set] is a [gset string].
    - [os.path] is the POSIX one.
    - The [csv] module, openpyxl and the file system are a [world]: a
      record of what their calls return or raise.
    - Statements are functions on a state that holds the workbook, the
      used names and the trace of the events performed; an exception is
      an outcome, and [try]/[except] is a combinator.
    - A generator is its suspended body, so that what a call performs and
      what the first request for a value performs are told apart. *)

From Stdlib Require Import Ascii ZArith.
From stdpp Require Import gmap strings list pretty sorting.

Local Open Scope string_scope.
Local Open Scope list_scope.
Local Open Scope nat_scope.

(** ** Python string primitives *)

Module PyStr.

Definition chars (s : string) : list ascii := String.list_ascii_of_string s.

Fixpoint map (f : ascii → ascii) (s : string) : string :=
  match s with
  | "" => ""
  | String c s' => String (f c) (map f s')
  end.

Fixpoint take (n : nat) (s : string) : string :=
  match n, s with
  | S n', String c s' => String c (take n' s')
  | _, _ => ""
  end.

Fixpoint drop (n : nat) (s : string) : string :=
  match n, s with
  | S n', String _ s' => drop n' s'
  | _, _ => s
  end.

(** [s[:n]]: a negative stop counts from the end and is clamped at 0. *)
Definition slice_to (s : string) (n : Z) : string :=
  if (0 <=? n)%Z then take (Z.to_nat n) s
  else take (Z.to_nat (Z.of_nat (String.length s) + n)) s.

(** [s[n:]] for a non-negative start. *)
Definition slice_from (s : string) (n : Z) : string := drop (Z.to_nat n) s.

(** [str.isspace] on one character: the white space below code point 256. *)
Definition isspace (c : ascii) : bool :=
  let n := N_of_ascii c in
  ((9 <=? n) && (n <=? 13) || (28 <=? n) && (n <=? 32)
   || (n =? 133) || (n =? 160))%N.

(** [str.lstrip] and [str.rstrip], for the characters [P] accepts. *)
Fixpoint lstrip_by (P : ascii → bool) (s : string) : string :=
  match s with
  | "" => ""
  | String c s' => if P c then lstrip_by P s' else s
  end.

Fixpoint rstrip_by (P : ascii → bool) (s : string) : string :=
  match s with
  | "" => ""
  | String c s' =>
      match rstrip_by P s' with
      | "" => if P c then "" else String c ""
      | r => String c r
      end
  end.

(** [s.strip()] *)
Definition strip (s : string) : string := rstrip_by isspace (lstrip_by isspace s).

(** [s.rfind(c)]: the highest index of [c], or -1. *)
Fixpoint rfind (c : ascii) (s : string) : Z :=
  match s with
  | "" => -1
  | String a s' =>
      let r := rfind c s' in
      if (0 <=? r)%Z then (r + 1)%Z
      else if decide (a = c) then 0%Z else (-1)%Z
  end.

(** [c.lower()] on the code points below 256. *)
Definition lower_char (c : ascii) : ascii :=
  let n := N_of_ascii c in
  if ((65 <=? n) && (n <=? 90)
      || (192 <=? n) && (n <=? 222) && negb (n =? 215))%N
  then ascii_of_N (n + 32) else c.

Definition lower (s : string) : string := map lower_char s.

Definition endswith (s suf : string) : bool :=
  bool_decide ((String.length suf ≤ String.length s)%nat
               ∧ drop (String.length s - String.length suf) s = suf).

Definition startswith (s pre : string) : bool :=
  bool_decide (take (String.length pre) s = pre).

(** [str(n)] for a non-negative integer. *)
Definition str (n : N) : string := pretty n.

End PyStr.

(** ** [os.path] on POSIX *)

Module OsPath.

Definition sep : ascii := "/"%char.
Definition extsep : ascii := "."%char.

(** The loop of [genericpath._splitext] that skips leading dots:
    [n] is [dotIndex - filenameIndex]; the answer is [true] when a
    character other than the dot is met before [dotIndex]. *)
Fixpoint has_stem (p : string) (filenameIndex n : nat) : bool :=
  match n with
  | 0 => false
  | S n' =>
      match String.get filenameIndex p with
      | Some c =>
          if decide (c = extsep) then has_stem p (S filenameIndex) n'
          else true
      | None => true
      end
  end.

Definition splitext (p : string) : string * string :=
  let sepIndex := PyStr.rfind sep p in
  let dotIndex := PyStr.rfind extsep p in
  if (sepIndex <? dotIndex)%Z
     && has_stem p (Z.to_nat (sepIndex + 1)) (Z.to_nat (dotIndex - (sepIndex + 1)))
  then (PyStr.slice_to p dotIndex, PyStr.slice_from p dotIndex)
  else (p, "").

Definition basename (p : string) : string :=
  PyStr.slice_from p (PyStr.rfind sep p + 1).

(** [os.path.join(a, b)] with one component. *)
Definition join (a b : string) : string :=
  if PyStr.startswith b "/" then b
  else if bool_decide (a = "") || PyStr.endswith a "/" then a +:+ b
  else a +:+ "/" +:+ b.

(** [os.path.dirname(p)] *)
Definition dirname (p : string) : string :=
  let i := (PyStr.rfind sep p + 1)%Z in
  let head := PyStr.slice_to p i in
  if bool_decide (head ≠ "")
     && negb (bool_decide (PyStr.lstrip_by (λ c, bool_decide (c = sep)) head = ""))
  then PyStr.rstrip_by (λ c, bool_decide (c = sep)) head
  else head.

End OsPath.

(** ** The sheet-name sanitizer *)

Definition ILLEGAL_SHEET_CHARS : gset ascii :=
  list_to_set ["["; "]"; ":"; "*"; "?"; "/"; "\"; "'"]%char.

Definition MAX_SHEET_LEN : Z := 31.

Definition replace_illegal (ch : ascii) : ascii :=
  if decide (ch ∈ ILLEGAL_SHEET_CHARS) then "_"%char else ch.

(** [sys.maxsize]: no Python container has more members than this. *)
Definition PY_SSIZE_T_MAX : N := 2 ^ 63 - 1.

(** Lines 13 to 17: the illegal characters are replaced, the white space
    is stripped, the empty name becomes [Sheet], and the limit is applied. *)
Definition clean_name (name : string) : string :=
  let name := PyStr.map replace_illegal name in
  let name := if decide (PyStr.strip name = "") then "Sheet" else PyStr.strip name in
  PyStr.slice_to name MAX_SHEET_LEN.

(** The name before the uniqueness loop: the extension is dropped first. *)
Definition sheet_base (name : string) : string :=
  clean_name (OsPath.splitext name).1.

(** The candidate computed in the body of the loop for one value of the
    counter. *)
Definition suffixed (base : string) (counter : N) : string :=
  let suffix := "_" +:+ PyStr.str counter in
  let max_base_len := (MAX_SHEET_LEN - Z.of_nat (String.length suffix))%Z in
  PyStr.slice_to base max_base_len +:+ suffix.

(** [while candidate in used_names]: one unit of fuel per test of the
    condition. *)
Fixpoint uniquify (fuel : nat) (used_names : gset string) (base candidate : string)
    (counter : N) : option string :=
  match fuel with
  | O => None
  | S fuel' =>
      if decide (candidate ∈ used_names)
      then uniquify fuel' used_names base (suffixed base counter) (counter + 1)
      else Some candidate
  end.

(** The title and the set after [used_names.add(candidate)].  The loop is
    run with two more tests than the set has members, which is always
    enough (see [sanitize_sheet_name_total]). *)
Definition sanitize_sheet_name (name : string) (used_names : gset string)
    : option (string * gset string) :=
  let base := sheet_base name in
  candidate ← uniquify (size used_names + 2) used_names base base 1;
  Some (candidate, {[candidate]} ∪ used_names).


(** ** Exceptions, outcomes and the events a run performs *)

(** An instance of a subclass of [Exception]: its class and its message. *)
Inductive exn := Exception (kind message : string).

Inductive outcome (A : Type) :=
  | Returned (a : A)
  | Raised (e : exn).
Arguments Returned {A} a.
Arguments Raised {A} e.

Definition row := list string.

Inductive event :=
  | EvSniff (sample_text : string)
  | EvOpen (path mode : string)
  | EvCreateSheet (title : string)
  | EvAppend (sheet : nat) (r : row)
  | EvPrint (line : string)
  | EvMakedirs (dir : string)
  | EvSave (path : string).

(** ** CSV dialects *)

Record dialect := {
  delimiter : string;
  quotechar : string;
  doublequote : bool;
  skipinitialspace : bool
}.

(** [csv.excel] *)
Definition excel : dialect :=
  {| delimiter := ","; quotechar := String "034"%char "";
     doublequote := true; skipinitialspace := false |}.

(** A directory tree: what [os.listdir] and [os.walk] see. *)
#[warnings="-register-all"]
Inductive node :=
  | File
  | Dir (entries : list (string * node)).

(** ** The world outside the program

    The standard library, openpyxl and the file system, as far as the
    program calls them. *)
Record world := {
  (** [bytes.decode("utf-8", errors="ignore")] *)
  decode_ignore : list Byte.byte → string;
  (** [csv.Sniffer().sniff(text, delimiters)]: a dialect or an exception *)
  Sniffer_sniff : string → list string → exn + dialect;
  (** creating a dialect validates it: the exception for a delimiter that
      is not a string of one character, and the exception, when there is
      one, for a delimiter of one character *)
  bad_delimiter : string → exn;
  delimiter_error : ascii → option exn;
  (** [open(path, "rb")] and the bytes of the file *)
  read_binary : string → exn + list Byte.byte;
  (** [open(path, "r", newline="", encoding=encoding, errors="replace")] *)
  open_text : string → string → exn + string;
  (** [csv.reader(f, dialect)]: the rows it yields, and the exception
      that ends the iteration when there is one *)
  csv_reader : string → dialect → list row * option exn;
  (** the exception [ws.append(row)] raises for a row, when it does *)
  append_error : row → option exn;
  (** the directory the run reads *)
  tree : node;
  abspath : string → string;
  makedirs_error : string → option exn;
  save_error : string → option exn
}.

(** ** The dialect sniffer *)

Definition dq : string := String "034"%char "".
Definition tab : string := String "009"%char "".

(** [class SimpleDialect(csv.excel): delimiter = provided_delimiter]
    followed by [SimpleDialect()]: creating the instance validates it, and
    the delimiter must be a string of one character; the other attributes
    are those of [csv.excel]. *)
Definition SimpleDialect (w : world) (provided_delimiter : string) : outcome dialect :=
  match provided_delimiter with
  | String c "" =>
      match delimiter_error w c with
      | Some e => Raised e
      | None =>
          Returned {| delimiter := provided_delimiter; quotechar := quotechar excel;
                      doublequote := doublequote excel;
                      skipinitialspace := skipinitialspace excel |}
      end
  | _ => Raised (bad_delimiter w provided_delimiter)
  end.

(** [if provided_delimiter:] on [None] or a string *)
Definition truthy (provided_delimiter : option string) : option string :=
  match provided_delimiter with
  | Some "" | None => None
  | Some d => Some d
  end.

(** The events are the calls of the sniffer; the outcome is what the
    caller gets. *)
Definition sniff_dialect (w : world) (sample_bytes : list Byte.byte)
    (provided_delimiter : option string) : list event * outcome dialect :=
  match truthy provided_delimiter with
  | Some d => ([], SimpleDialect w d)
  | None =>
      let sample_text := decode_ignore w sample_bytes in
      ([EvSniff sample_text],
       match Sniffer_sniff w sample_text [","; ";"; tab; "|"] with
       | inr dialect => Returned dialect
       | inl _ => Returned excel
       end)
  end.

(** ** The file discoverer *)

Definition is_dir (n : node) : bool :=
  match n with Dir _ => true | File => false end.

(** [os.listdir(path)] *)
Definition listdir (n : node) : outcome (list string) :=
  match n with
  | Dir entries => Returned (entries.*1)
  | File => Raised (Exception "NotADirectoryError" "Not a directory")
  end.

(** [os.walk(top)], top down: the triples [(root, dirnames, filenames)]. *)
Fixpoint walk (top : string) (n : node) : list (string * list string * list string) :=
  match n with
  | File => []
  | Dir entries =>
      (top,
       (List.filter (λ e, is_dir e.2) entries).*1,
       (List.filter (λ e, negb (is_dir e.2)) entries).*1)
      :: flat_map (λ e, match e.2 with
                        | Dir _ => walk (OsPath.join top e.1) e.2
                        | File => []
                        end) entries
  end.

(** [fn.lower().endswith(".csv")] *)
Definition is_csv (fn : string) : bool := PyStr.endswith (PyStr.lower fn) ".csv".

(** The sort key: [os.path.basename(p).lower()]. *)
Definition sort_key (p : string) : string := PyStr.lower (OsPath.basename p).

(** [sorted(files, key=key)]: the sort is stable, so the result is the
    one of inserting each element before the first element after it whose
    key is not smaller. *)
Fixpoint insert_sorted (key : string → string) (x : string) (l : list string) : list string :=
  match l with
  | [] => [x]
  | y :: l' =>
      if String.leb (key x) (key y) then x :: y :: l'
      else y :: insert_sorted key x l'
  end.

Definition sorted (key : string → string) (l : list string) : list string :=
  foldr (insert_sorted key) [] l.

Definition csv_under (root : string) (filenames : list string) : list string :=
  OsPath.join root <$> List.filter is_csv filenames.

Definition find_csv_files (input_dir : string) (n : node) (recursive : bool)
    : outcome (list string) :=
  if recursive then
    Returned (sorted sort_key
      (flat_map (λ t, csv_under t.1.1 t.2) (walk input_dir n)))
  else
    match listdir n with
    | Returned names => Returned (sorted sort_key (csv_under input_dir names))
    | Raised e => Raised e
    end.

(** ** Statements: state, exceptions and the trace *)

Record worksheet := { title : string; rows : list row }.

(** The workbook under construction, the local [used_names], and the
    events performed so far. *)
Record state := {
  wb : list worksheet;
  used_names : gset string;
  log : list event
}.

(** A statement maps a state to an outcome and a state; [None] is a loop
    of the model that ran out of fuel. *)
Definition M (A : Type) : Type := state → option (outcome A * state).

Definition ret {A} (a : A) : M A := λ st, Some (Returned a, st).

Definition raise {A} (e : exn) : M A := λ st, Some (Raised e, st).

Definition bind {A B} (m : M A) (k : A → M B) : M B := λ st,
  match m st with
  | Some (Returned a, st') => k a st'
  | Some (Raised e, st') => Some (Raised e, st')
  | None => None
  end.

Declare Scope stmt_scope.
Delimit Scope stmt_scope with stmt.
Notation "'let*' x ':=' m 'in' k" := (bind m (λ x, k))
  (at level 10, x name, m at level 100, k at level 200) : stmt_scope.
Notation "'do' m 'then' k" := (bind m (λ _, k))
  (at level 10, m at level 100, k at level 200) : stmt_scope.
Local Open Scope stmt_scope.

(** [try: body] followed by [except Exception as e: handler] *)
Definition try_except {A} (body : M A) (handler : exn → M A) : M A := λ st,
  match body st with
  | Some (Raised e, st') => handler e st'
  | r => r
  end.

Definition emit (evs : list event) : M unit := λ st,
  Some (Returned (), {| wb := wb st; used_names := used_names st;
                        log := log st ++ evs |}).

Definition print (line : string) : M unit := emit [EvPrint line].

(** [if verbose: print(line)] *)
Definition print_if (verbose : bool) (line : string) : M unit :=
  if verbose then print line else ret ().

(** [for x in xs: body] over a list *)
Fixpoint for_each {A} (xs : list A) (body : A → M unit) : M unit :=
  match xs with
  | [] => ret ()
  | x :: xs' => do body x then for_each xs' body
  end.

(** ** Generators

    A generator object is its suspended body: the events the body
    performs when it is resumed, and then the row it yields with the
    rest of the generator, its end, or the exception it raises. *)
Inductive generator :=
  | Gen (effects : list event) (step : gen_step)
with gen_step :=
  | Yield (r : row) (rest : generator)
  | StopIteration
  | Raise (e : exn).

Scheme generator_mut := Induction for generator Sort Prop
  with gen_step_mut := Induction for gen_step Sort Prop.

(** [for row in reader: yield row] *)
Fixpoint yield_rows (rs : list row) (failure : option exn) : gen_step :=
  match rs with
  | r :: rs' => Yield r (Gen [] (yield_rows rs' failure))
  | [] => match failure with Some e => Raise e | None => StopIteration end
  end.

(** The body of [read_csv_rows] up to its first [yield]. *)
Definition read_csv_rows_body (w : world) (path encoding : string)
    (delimiter : option string) : generator :=
  match read_binary w path with
  | inl e => Gen [EvOpen path "rb"] (Raise e)
  | inr contents =>
      let sample := take 4096 contents in
      let '(sniffing, dialect) := sniff_dialect w sample delimiter in
      match dialect with
      | Raised e => Gen (EvOpen path "rb" :: sniffing) (Raise e)
      | Returned dialect =>
          match open_text w path encoding with
          | inl e => Gen (EvOpen path "rb" :: sniffing ++ [EvOpen path "r"]) (Raise e)
          | inr f =>
              let '(rs, failure) := csv_reader w f dialect in
              Gen (EvOpen path "rb" :: sniffing ++ [EvOpen path "r"])
                  (yield_rows rs failure)
          end
      end
  end.

(** Calling a generator function runs none of its body: the call returns
    the generator object. *)
Definition read_csv_rows (w : world) (path encoding : string)
    (delimiter : option string) : M generator :=
  ret (read_csv_rows_body w path encoding delimiter).

(** [next(g)]: resume the body until it yields, ends or raises. *)
Definition next (g : generator) : M (option (row * generator)) :=
  match g with
  | Gen effects step =>
      do emit effects then
      match step with
      | Yield r rest => ret (Some (r, rest))
      | StopIteration => ret None
      | Raise e => raise e
      end
  end.

(** [for row in g: body] over a generator *)
Fixpoint for_rows (g : generator) (body : row → M unit) : M unit :=
  match g with
  | Gen effects step =>
      do emit effects then
      match step with
      | Yield r rest => do body r then for_rows rest body
      | StopIteration => ret ()
      | Raise e => raise e
      end
  end.

(** ** The workbook builder *)

(** [sanitize_sheet_name(name, used_names)] on the [used_names] of the
    state. *)
Definition sanitize (name : string) : M string := λ st,
  '(candidate, used) ← sanitize_sheet_name name (used_names st);
  Some (Returned candidate,
        {| wb := wb st; used_names := used; log := log st |}).

(** [wb.create_sheet(title=sheet_name)]: the new sheet is the last one;
    the result is its position. *)
Definition create_sheet (sheet_name : string) : M nat := λ st,
  Some (Returned (length (wb st)),
        {| wb := wb st ++ [{| title := sheet_name; rows := [] |}];
           used_names := used_names st;
           log := log st ++ [EvCreateSheet sheet_name] |}).

Definition add_row (r : row) (ws : worksheet) : worksheet :=
  {| title := title ws; rows := rows ws ++ [r] |}.

(** [ws.append(row)] *)
Definition ws_append (w : world) (ws : nat) (r : row) : M unit :=
  match append_error w r with
  | Some e => raise e
  | None => λ st,
      Some (Returned (), {| wb := alter (add_row r) ws (wb st);
                            used_names := used_names st;
                            log := log st ++ [EvAppend ws r] |})
  end.

Definition exn_str (e : exn) : string :=
  match e with Exception _ message => message end.

(** The [try] block of the loop body. *)
Definition read_into (w : world) (csv_path encoding : string)
    (delimiter : option string) (ws : nat) : M unit :=
  let* g := read_csv_rows w csv_path encoding delimiter in
  for_rows g (ws_append w ws).

(** The body of [for csv_path in csv_files]. *)
Definition process_file (w : world) (encoding : string) (delimiter : option string)
    (verbose : bool) (csv_path : string) : M unit :=
  let* sheet_name := sanitize (OsPath.basename csv_path) in
  let* ws := create_sheet sheet_name in
  do print_if verbose ("Adding sheet: " +:+ sheet_name +:+ " from " +:+ csv_path) then
  try_except
    (read_into w csv_path encoding delimiter ws)
    (λ e, print_if verbose
            ("Warning: failed to process " +:+ csv_path +:+ ": " +:+ exn_str e)).

Definition makedirs (w : world) (dir : string) : M unit :=
  do emit [EvMakedirs dir] then
  match makedirs_error w dir with Some e => raise e | None => ret () end.

Definition save (w : world) (path : string) : M unit :=
  do emit [EvSave path] then
  match save_error w path with Some e => raise e | None => ret () end.

Definition lift {A} (o : outcome A) : M A :=
  match o with Returned a => ret a | Raised e => raise e end.

Definition combine_csvs_to_excel (w : world) (input_dir output_path encoding : string)
    (delimiter : option string) (recursive verbose : bool) : M unit :=
  let* csv_files := lift (find_csv_files input_dir (tree w) recursive) in
  match csv_files with
  | [] => raise (Exception "FileNotFoundError"
                   ("No CSV files found in: " +:+ input_dir))
  | _ =>
      do for_each csv_files (process_file w encoding delimiter verbose) then
      let outdir :=
        let d := OsPath.dirname (abspath w output_path) in
        if decide (d = "") then "." else d in
      do makedirs w outdir then
      do save w output_path then
      print_if verbose ("Wrote Excel workbook: " +:+ output_path)
  end.

(** The state at [wb = Workbook(write_only=True)] and
    [used_names = set()]. *)
Definition initial : state := {| wb := []; used_names := ∅; log := [] |}.

(** The titles a sequence of names gets from calls that share one set. *)
Fixpoint sanitize_all (names : list string) (used : gset string)
    : option (list string * gset string) :=
  match names with
  | [] => Some ([], used)
  | name :: names' =>
      '(t, used') ← sanitize_sheet_name name used;
      '(ts, used'') ← sanitize_all names' used';
      Some (t :: ts, used'')
  end.

(** ** A small world to run the program in

    A directory [in] with three CSV files, a text file and a
    subdirectory; [B.csv] cannot be opened and the reader fails on
    [a.csv] after two rows. *)
Definition demo_tree : node :=
  Dir [("B.csv", File); ("a.csv", File); ("C.CSV", File); ("notes.txt", File);
       ("sub", Dir [("a.csv", File)])].

Definition demo : world := {|
  decode_ignore := λ bs, String.string_of_list_byte bs;
  Sniffer_sniff := λ text _,
    if decide (text = "") then inl (Exception "Error" "Could not determine delimiter")
    else inr {| delimiter := ";"; quotechar := dq; doublequote := true;
                skipinitialspace := false |};
  bad_delimiter := λ _,
    Exception "Error" (dq +:+ "delimiter" +:+ dq +:+ " must be a 1-character string");
  delimiter_error := λ _, None;
  read_binary := λ p,
    if decide (p = "in/B.csv") then inl (Exception "PermissionError" "Permission denied")
    else inr [];
  open_text := λ p _, inr p;
  csv_reader := λ f _,
    if decide (f = "in/a.csv")
    then ([["x"; "1"]; ["y"; "2"]], Some (Exception "Error" "line contains NUL"))
    else ([["name"; "amt"]], None);
  append_error := λ _, None;
  tree := demo_tree;
  abspath := λ p, "/work/" +:+ p;
  makedirs_error := λ _, None;
  save_error := λ _, None
|}.

(** The state when the sheet of [in/a.csv] has just been created. *)
Definition demo_sheet_a : state :=
  {| wb := [{| title := "a"; rows := [] |}]; used_names := {["a"]}; log := [] |}.

(** ** The command line front end *)

(** The namespace that [parser.parse_args()] returns: [--encoding] has
    the default [utf-8-sig], [--delimiter] is [None] when it is left out,
    and the two flags are [False] when they are left out. *)
Record Args := {
  arg_input_dir : string;
  arg_output : string;
  arg_encoding : string;
  arg_delimiter : option string;
  arg_recursive : bool;
  arg_quiet : bool
}.

(** Lines 112 to 116: the override passed on.  The string compared with
    is a backslash followed by [t]. *)
Definition cli_delimiter (given : option string) : option string :=
  match truthy given with
  | Some d => if decide (PyStr.lower d = "\t") then Some tab else Some d
  | None => None
  end.

(** [main], after the arguments are parsed.  [os.path.isdir] is asked
    about the node at the input directory. *)
Definition main (w : world) (args : Args) : M unit :=
  if negb (is_dir (tree w)) then
    raise (Exception "NotADirectoryError"
             ("Not a directory: " +:+ arg_input_dir args))
  else
    combine_csvs_to_excel w (arg_input_dir args) (arg_output args)
      (arg_encoding args) (cli_delimiter (arg_delimiter args))
      (arg_recursive args) (negb (arg_quiet args)).

(** The small world again, with a directory that holds no CSV file. *)
Definition demo_no_csv : world := {|
  decode_ignore := decode_ignore demo;
  Sniffer_sniff := Sniffer_sniff demo;
  bad_delimiter := bad_delimiter demo;
  delimiter_error := delimiter_error demo;
  read_binary := read_binary demo;
  open_text := open_text demo;
  csv_reader := csv_reader demo;
  append_error := append_error demo;
  tree := Dir [("notes.txt", File); ("data.csv.bak", File)];
  abspath := abspath demo;
  makedirs_error := makedirs_error demo;
  save_error := save_error demo
|}.

(** The small world again, where the input path is a file. *)
Definition demo_not_dir : world := {|
  decode_ignore := decode_ignore demo;
  Sniffer_sniff := Sniffer_sniff demo;
  bad_delimiter := bad_delimiter demo;
  delimiter_error := delimiter_error demo;
  read_binary := read_binary demo;
  open_text := open_text demo;
  csv_reader := csv_reader demo;
  append_error := append_error demo;
  tree := File;
  abspath := abspath demo;
  makedirs_error := makedirs_error demo;
  save_error := save_error demo
|}.

(** Command lines for the small world: the escape for the tab, and a
    delimiter of two characters. *)
Definition demo_args (given : option string) : Args :=
  {| arg_input_dir := "in"; arg_output := "out/all.xlsx";
     arg_encoding := "utf-8-sig"; arg_delimiter := given;
     arg_recursive := false; arg_quiet := false |}.

(** ** Notions used in the statements *)

Definition is_digit (c : ascii) : Prop := (48 ≤ N_of_ascii c ≤ 57)%N.

Definition legal (c : ascii) : Prop := c ∉ ILLEGAL_SHEET_CHARS.

Definition all_dots (s : string) : bool :=
  forallb (λ c, bool_decide (c = OsPath.extsep)) (PyStr.chars s).

(** The order of two paths by their sort keys. *)
Definition key_le (key : string → string) (p q : string) : Prop :=
  String.le (key p) (key q).

(** A directory prefix: empty, or ending in the separator. *)
Definition is_dir_prefix (dir : string) : Prop :=
  dir = "" ∨ ∃ d, dir = d +:+ "/".

(** An override the sniffer can turn into a dialect: none, the empty
    string, or one character that the CSV module accepts. *)
Definition acceptable (w : world) (provided_delimiter : option string) : Prop :=
  match truthy provided_delimiter with
  | None => True
  | Some (String c "") => delimiter_error w c = None
  | Some _ => False
  end.

(** The rows of a generator that reach the sheet, and the exception that
    ends the reading when there is one: from the generator itself or from
    [ws.append]. *)
Fixpoint read_result (w : world) (g : generator) : list row * option exn :=
  match g with
  | Gen _ step =>
      match step with
      | Yield r rest =>
          match append_error w r with
          | Some e => ([], Some e)
          | None => (r :: (read_result w rest).1, (read_result w rest).2)
          end
      | StopIteration => ([], None)
      | Raise e => ([], Some e)
      end
  end.

(** The events of that reading, for the sheet at position [ws]. *)
Fixpoint read_events (w : world) (ws : nat) (g : generator) : list event :=
  match g with
  | Gen effects step =>
      effects ++
      match step with
      | Yield r rest =>
          match append_error w r with
          | Some _ => []
          | None => EvAppend ws r :: read_events w ws rest
          end
      | StopIteration | Raise _ => []
      end
  end.

Definition add_rows (rs : list row) (ws : worksheet) : worksheet :=
  {| title := title ws; rows := rows ws ++ rs |}.

Definition as_outcome (o : option exn) : outcome unit :=
  match o with Some e => Raised e | None => Returned () end.

Definition logged (st : state) (evs : list event) : state :=
  {| wb := wb st; used_names := used_names st; log := log st ++ evs |}.

Definition adding (sheet_name csv_path : string) : string :=
  "Adding sheet: " +:+ sheet_name +:+ " from " +:+ csv_path.

Definition warning (csv_path : string) (e : exn) : string :=
  "Warning: failed to process " +:+ csv_path +:+ ": " +:+ exn_str e.

(** The events of one turn of the loop over the files. *)
Definition file_events (w : world) (encoding : string) (delimiter : option string)
    (verbose : bool) (ws : nat) (t csv_path : string) : list event :=
  let g := read_csv_rows_body w csv_path encoding delimiter in
  EvCreateSheet t
  :: (if verbose then [EvPrint (adding t csv_path)] else [])
  ++ read_events w ws g
  ++ match (read_result w g).2 with
     | Some e => if verbose then [EvPrint (warning csv_path e)] else []
     | None => []
     end.

(** [outdir] in [combine_csvs_to_excel]. *)
Definition outdir_of (w : world) (output_path : string) : string :=
  let d := OsPath.dirname (abspath w output_path) in
  if decide (d = "") then "." else d.

Definition sheet_of (w : world) (encoding : string) (delimiter : option string)
    (t csv_path : string) : worksheet :=
  {| title := t;
     rows := (read_result w (read_csv_rows_body w csv_path encoding delimiter)).1 |}.


(** The rows of a reader that [ws.append] takes: those before the first
    one it raises on. *)
Fixpoint accepted (w : world) (rs : list row) : list row :=
  match rs with
  | [] => []
  | r :: rs' =>
      match append_error w r with
      | Some _ => []
      | None => r :: accepted w rs'
      end
  end.

(** The exception that ends the reading of those rows, when there is
    one: the first one of [ws.append], or else the one of the reader. *)
Fixpoint ending (w : world) (rs : list row) (failure : option exn) : option exn :=
  match rs with
  | [] => failure
  | r :: rs' =>
      match append_error w r with
      | Some e => Some e
      | None => ending w rs' failure
      end
  end.

Definition is_print (ev : event) : bool :=
  match ev with EvPrint _ => true | _ => false end.

Definition is_sniff (ev : event) : bool :=
  match ev with EvSniff _ => true | _ => false end.

Definition is_save (ev : event) : bool :=
  match ev with EvSave _ => true | _ => false end.

Definition is_makedirs (ev : event) : bool :=
  match ev with EvMakedirs _ => true | _ => false end.

(** The dialect of an override of one character. *)
Definition with_delimiter (d : string) : dialect :=
  {| delimiter := d; quotechar := quotechar excel;
     doublequote := doublequote excel;
     skipinitialspace := skipinitialspace excel |}.

(** Names as a directory lists them: none has the separator. *)
Definition slash_free (names : list string) : Prop :=
  Forall (λ fn, OsPath.sep ∉ PyStr.chars fn) names.

(** The paths [find_csv_files] sorts, in the order of the listing. *)
Definition listed (input_dir : string) (entries : list (string * node))
    (recursive : bool) : list string :=
  if recursive
  then flat_map (λ t, csv_under t.1.1 t.2) (walk input_dir (Dir entries))
  else csv_under input_dir (entries.*1).

(** What [combine_csvs_to_excel] does after the loop over the files: the
    events, and how the run ends. *)
Definition finish (w : world) (output_path : string) (verbose : bool)
    : list event * outcome unit :=
  match makedirs_error w (outdir_of w output_path) with
  | Some e => ([EvMakedirs (outdir_of w output_path)], Raised e)
  | None =>
      match save_error w output_path with
      | Some e =>
          ([EvMakedirs (outdir_of w output_path); EvSave output_path], Raised e)
      | None =>
          ([EvMakedirs (outdir_of w output_path); EvSave output_path]
           ++ (if verbose
               then [EvPrint ("Wrote Excel workbook: " +:+ output_path)]
               else []),
           Returned ())
      end
  end.

(** ** Facts about the string primitives *)

Module PyStrFacts.
Import PyStr.

Lemma app_nil_l s : "" +:+ s = s.
Proof. done. Qed.

Lemma app_cons c s1 s2 : String c s1 +:+ s2 = String c (s1 +:+ s2).
Proof. done. Qed.

Lemma chars_app s1 s2 : chars (s1 +:+ s2) = chars s1 ++ chars s2.
Proof.
  unfold chars. induction s1 as [|c s1 IH]; [done|].
  change (String c s1 +:+ s2) with (String c (s1 +:+ s2)).
  simpl. by rewrite IH.
Qed.

Lemma length_chars s : length (chars s) = String.length s.
Proof. unfold chars. induction s as [|c s IH]; [done|]. simpl. by rewrite IH. Qed.

Lemma length_append s1 s2 :
  String.length (s1 +:+ s2) = String.length s1 + String.length s2.
Proof. by rewrite <-!length_chars, chars_app, length_app. Qed.

Lemma chars_take n s : chars (take n s) = list.take n (chars s).
Proof.
  unfold chars. revert s; induction n as [|n IH]; intros [|c s]; simpl; try done.
  by rewrite IH.
Qed.

Lemma chars_map f s : chars (map f s) = f <$> chars s.
Proof. unfold chars. induction s as [|c s IH]; [done|]. simpl. by rewrite IH. Qed.

Lemma chars_inj s1 s2 : chars s1 = chars s2 → s1 = s2.
Proof.
  intros H. rewrite <-(String.string_of_list_ascii_of_string s1),
    <-(String.string_of_list_ascii_of_string s2). unfold chars in H. by rewrite H.
Qed.

Lemma chars_slice_to s n : ∃ m, chars (slice_to s n) = list.take m (chars s).
Proof. unfold slice_to. case_match; eexists; apply chars_take. Qed.

Lemma length_take n s : String.length (take n s) = n `min` String.length s.
Proof. by rewrite <-!length_chars, chars_take, length_take. Qed.

Lemma length_slice_to_nonneg s n :
  (0 ≤ n)%Z → String.length (slice_to s n) ≤ Z.to_nat n.
Proof.
  intros Hn. unfold slice_to. rewrite (proj2 (Z.leb_le 0 n) Hn).
  rewrite length_take. lia.
Qed.

Lemma slice_to_all s n :
  (Z.of_nat (String.length s) ≤ n)%Z → slice_to s n = s.
Proof.
  intros Hn. unfold slice_to. rewrite (proj2 (Z.leb_le 0 n)) by lia.
  apply chars_inj. rewrite chars_take, take_ge; [done|].
  rewrite length_chars. lia.
Qed.

Lemma chars_lstrip P s : chars (lstrip_by P s) `suffix_of` chars s.
Proof.
  unfold chars. induction s as [|c s IH]; [done|]. simpl. case_match; [|done].
  by apply suffix_cons_r.
Qed.

Lemma chars_rstrip P s : chars (rstrip_by P s) `prefix_of` chars s.
Proof.
  unfold chars. induction s as [|c s IH]; [done|]. simpl.
  destruct (rstrip_by P s) as [|c' r] eqn:Hr.
  - case_match; [apply prefix_nil|]. apply prefix_cons, prefix_nil.
  - by apply prefix_cons.
Qed.

Lemma elem_of_chars_strip c s : c ∈ chars (strip s) → c ∈ chars s.
Proof.
  unfold strip. intros Hc.
  destruct (chars_rstrip isspace (lstrip_by isspace s)) as [k1 Hk1].
  destruct (chars_lstrip isspace s) as [k2 Hk2].
  rewrite Hk2, Hk1. set_solver.
Qed.

End PyStrFacts.

(** ** Decimal numerals *)

Module Decimal.
Import PyStr PyStrFacts.

Lemma pretty_N_char_digit x : is_digit (pretty_N_char x).
Proof. unfold pretty_N_char, is_digit. repeat case_match; simpl; lia. Qed.

Lemma pretty_N_go_digits x s :
  Forall is_digit (chars s) → Forall is_digit (chars (pretty_N_go x s)).
Proof.
  revert s. induction (N.lt_wf_0 x) as [x _ IH]; intros s Hs.
  destruct (decide (x = 0)%N) as [->|Hx]; [by rewrite pretty_N_go_0|].
  rewrite pretty_N_go_step by lia. apply IH.
  - apply N.div_lt; lia.
  - unfold chars. simpl. constructor; [apply pretty_N_char_digit|done].
Qed.

Lemma str_digits n : Forall is_digit (chars (str n)).
Proof.
  unfold str, pretty, pretty_N. case_decide.
  - repeat constructor; unfold is_digit; simpl; lia.
  - apply pretty_N_go_digits. constructor.
Qed.

Lemma pretty_N_go_length (d : nat) x s :
  (x < 10 ^ N.of_nat d)%N →
  String.length (pretty_N_go x s) ≤ d + String.length s.
Proof.
  revert x s. induction d as [|d IH]; intros x s Hx.
  - assert (x = 0)%N as -> by (simpl in Hx; lia). rewrite pretty_N_go_0. lia.
  - destruct (decide (x = 0)%N) as [->|Hx0]; [rewrite pretty_N_go_0; lia|].
    rewrite pretty_N_go_step by lia.
    etrans; [apply IH|simpl; lia].
    rewrite Nat2N.inj_succ, N.pow_succ_r' in Hx.
    apply N.Div0.div_lt_upper_bound. lia.
Qed.

(** A number below [10 ^ d] prints with at most [d] digits. *)
Lemma str_length (d : nat) n :
  0 < d → (n < 10 ^ N.of_nat d)%N → String.length (str n) ≤ d.
Proof.
  intros Hd Hn. unfold str, pretty, pretty_N. case_decide.
  - simpl. lia.
  - etrans; [by apply pretty_N_go_length|]. simpl. lia.
Qed.

Lemma str_nonempty n : str n ≠ "".
Proof.
  unfold str, pretty, pretty_N. case_decide; [done|].
  rewrite pretty_N_go_step by lia.
  intros Heq.
  assert (∀ x s, String.length s ≤ String.length (pretty_N_go x s)) as Hmono.
  { clear. intros x. induction (N.lt_wf_0 x) as [x _ IH]; intros s.
    destruct (decide (x = 0)%N) as [->|Hx]; [by rewrite pretty_N_go_0|].
    rewrite pretty_N_go_step by lia.
    etrans; [|apply IH; apply N.div_lt; lia]. simpl. lia. }
  specialize (Hmono (n `div` 10)%N (String (pretty_N_char (n `mod` 10)) "")).
  rewrite Heq in Hmono. simpl in Hmono. lia.
Qed.

Lemma str_inj : Inj (=) (=) str.
Proof. unfold str. apply _. Qed.

End Decimal.

(** ** Facts about the sanitizer *)

Module SanitizerFacts.
Import PyStr PyStrFacts Decimal.

Lemma elem_of_ILLEGAL c :
  c ∈ ILLEGAL_SHEET_CHARS ↔
  c ∈ ["["; "]"; ":"; "*"; "?"; "/"; "\"; "'"]%char.
Proof. unfold ILLEGAL_SHEET_CHARS. by rewrite elem_of_list_to_set. Qed.

Lemma underscore_legal : legal "_".
Proof.
  unfold legal. rewrite elem_of_ILLEGAL, !elem_of_cons, elem_of_nil.
  intros Hc. decompose [or] Hc; done.
Qed.

Lemma digit_legal c : is_digit c → legal c.
Proof.
  unfold legal, is_digit. rewrite elem_of_ILLEGAL, !elem_of_cons, elem_of_nil.
  intros Hd Hc. decompose [or] Hc; subst; simpl in Hd; lia.
Qed.

Lemma digit_not_underscore c : is_digit c → c ≠ "_"%char.
Proof. unfold is_digit. intros Hd ->. simpl in Hd. lia. Qed.

Lemma replace_illegal_legal c : legal (replace_illegal c).
Proof.
  unfold replace_illegal. case_decide; [apply underscore_legal|done].
Qed.

Lemma Forall_chars_slice_to P s n :
  Forall P (chars s) → Forall P (chars (slice_to s n)).
Proof.
  intros Hs. destruct (chars_slice_to s n) as [m ->]. by apply Forall_take.
Qed.

(** The name before the uniqueness loop: non-empty, within the limit and
    free of illegal characters. *)
Lemma sheet_base_legal name : Forall legal (chars (sheet_base name)).
Proof.
  unfold sheet_base, clean_name. apply Forall_chars_slice_to. case_decide.
  - repeat constructor; unfold legal; rewrite elem_of_ILLEGAL, !elem_of_cons,
      elem_of_nil; intros Hc; decompose [or] Hc; done.
  - apply Forall_forall. intros c Hc%elem_of_chars_strip.
    rewrite chars_map in Hc. apply list_elem_of_fmap in Hc as (c' & -> & _).
    apply replace_illegal_legal.
Qed.

Lemma sheet_base_nonempty name : sheet_base name ≠ "".
Proof.
  unfold sheet_base, clean_name.
  set (n := if decide (_ = "") then _ else _).
  assert (n ≠ "") as Hn by (subst n; by case_decide).
  destruct n as [|c n]; [done|]. by unfold slice_to, MAX_SHEET_LEN.
Qed.

Lemma sheet_base_length name :
  (Z.of_nat (String.length (sheet_base name)) ≤ MAX_SHEET_LEN)%Z.
Proof.
  unfold sheet_base, clean_name.
  pose proof (length_slice_to_nonneg
    (if decide (strip (map replace_illegal (OsPath.splitext name).1) = "")
     then "Sheet" else strip (map replace_illegal (OsPath.splitext name).1))
    MAX_SHEET_LEN) as H.
  unfold MAX_SHEET_LEN in *. lia.
Qed.

Lemma suffixed_unfold base k :
  suffixed base k
  = slice_to base (MAX_SHEET_LEN - Z.of_nat (S (String.length (str k))))
    +:+ String "_" (str k).
Proof. done. Qed.

Lemma suffixed_nonempty base k : suffixed base k ≠ "".
Proof.
  rewrite suffixed_unfold. intros H%(f_equal String.length).
  rewrite length_append in H. simpl in H. lia.
Qed.

Lemma suffixed_legal base k :
  Forall legal (chars base) → Forall legal (chars (suffixed base k)).
Proof.
  intros Hb. rewrite suffixed_unfold, chars_app. apply Forall_app. split.
  - by apply Forall_chars_slice_to.
  - unfold chars. simpl. constructor; [apply underscore_legal|].
    eapply Forall_impl; [apply str_digits|]. apply digit_legal.
Qed.

(** While the counter has at most 30 digits the candidate fits the limit. *)
Lemma suffixed_length base k :
  (k < 10 ^ 30)%N →
  (Z.of_nat (String.length (suffixed base k)) ≤ MAX_SHEET_LEN)%Z.
Proof.
  intros Hk. rewrite suffixed_unfold, length_append.
  pose proof (str_length 30 k ltac:(lia) Hk) as Hd.
  pose proof (length_slice_to_nonneg base
    (MAX_SHEET_LEN - Z.of_nat (S (String.length (str k))))) as Hs.
  unfold MAX_SHEET_LEN in *. simpl. lia.
Qed.

(** Two strings that end in an underscore followed by digits have the
    same digits. *)
Lemma underscore_tail_inj p1 p2 d1 d2 :
  "_"%char ∉ chars d1 → "_"%char ∉ chars d2 →
  p1 +:+ String "_" d1 = p2 +:+ String "_" d2 → d1 = d2.
Proof.
  intros H1 H2.
  assert (∀ p d, "_"%char ∈ chars (p +:+ String "_" d)) as Hin.
  { intros p d. rewrite chars_app. unfold chars at 2. simpl.
    rewrite elem_of_app, elem_of_cons. auto. }
  revert p2. induction p1 as [|c p1 IH]; intros [|c' p2] Heq;
    rewrite ?app_nil_l, ?app_cons in Heq; simplify_eq.
  - done.
  - by destruct H1.
  - by destruct H2.
  - by eapply IH.
Qed.

Lemma str_no_underscore k : "_"%char ∉ chars (str k).
Proof.
  intros H. pose proof (str_digits k) as Hd.
  rewrite Forall_forall in Hd. by apply Hd, digit_not_underscore in H.
Qed.

(** Different counters give different candidates. *)
Lemma suffixed_inj base : Inj (=) (=) (suffixed base).
Proof.
  intros j k Heq. rewrite !suffixed_unfold in Heq.
  apply underscore_tail_inj in Heq; auto using str_no_underscore.
  by apply str_inj.
Qed.

End SanitizerFacts.

(** ** The uniqueness loop *)

Module LoopFacts.
Import PyStr PyStrFacts Decimal SanitizerFacts.

(** What the loop returns: the first candidate outside the set. *)
Lemma uniquify_Some fuel used base candidate counter r :
  uniquify fuel used base candidate counter = Some r →
  (r ∉ used) ∧
  (((candidate ∉ used) ∧ r = candidate) ∨
   (candidate ∈ used ∧ ∃ k, (counter ≤ k)%N ∧ r = suffixed base k ∧
      ∀ j, (counter ≤ j < k)%N → suffixed base j ∈ used)).
Proof.
  revert candidate counter. induction fuel as [|fuel IH];
    intros candidate counter Hr; [done|].
  simpl in Hr. destruct (decide (candidate ∈ used)) as [Hin|Hout].
  - apply IH in Hr as [Hr [[Hout ->]|[Hin' (k & Hk & -> & Hlt)]]].
    + split; [done|]. right. split; [done|]. exists counter.
      split; [lia|]. split; [done|]. intros j Hj. lia.
    + split; [done|]. right. split; [done|]. exists k.
      split; [lia|]. split; [done|]. intros j Hj.
      destruct (decide (j = counter)) as [->|Hne]; [done|].
      apply Hlt. lia.
  - injection Hr as <-. auto.
Qed.

(** When the fuel runs out every candidate tested was in the set. *)
Lemma uniquify_None fuel used base candidate counter :
  uniquify (S fuel) used base candidate counter = None →
  candidate ∈ used ∧
  ∀ j, (counter ≤ j < counter + N.of_nat fuel)%N → suffixed base j ∈ used.
Proof.
  revert candidate counter. induction fuel as [|fuel IH];
    intros candidate counter Hr.
  - simpl in Hr. case_decide; [|done]. split; [done|]. intros j Hj. lia.
  - change (uniquify (S (S fuel)) used base candidate counter)
      with (if decide (candidate ∈ used)
            then uniquify (S fuel) used base (suffixed base counter) (counter + 1)
            else Some candidate) in Hr.
    case_decide; [|done]. apply IH in Hr as [Hc Hr]. split; [done|].
    intros j Hj. destruct (decide (j = counter)) as [->|Hne]; [done|].
    apply Hr. lia.
Qed.

(** The candidates are pairwise distinct, so a set holds no more of them
    than it has members. *)
Lemma suffixed_pigeonhole (used : gset string) base (n : nat) :
  (∀ j, (1 ≤ j ≤ N.of_nat n)%N → suffixed base j ∈ used) → n ≤ size used.
Proof.
  intros Hall.
  set (l := (λ i, suffixed base (N.of_nat i)) <$> seq 1 n).
  assert (NoDup l) as Hnd.
  { apply NoDup_fmap_2; [|apply NoDup_seq].
    intros i j Hij. apply suffixed_inj in Hij. lia. }
  assert (list_to_set l ⊆ used) as Hsub.
  { intros s Hs. rewrite elem_of_list_to_set in Hs.
    apply list_elem_of_fmap in Hs as (i & -> & Hi).
    apply elem_of_seq in Hi. apply Hall. lia. }
  apply subseteq_size in Hsub.
  rewrite size_list_to_set in Hsub by done.
  subst l. by rewrite length_fmap, length_seq in Hsub.
Qed.

Lemma uniquify_total used base candidate :
  is_Some (uniquify (size used + 2) used base candidate 1).
Proof.
  destruct (uniquify _ _ _ _ _) eqn:Hr; [by eexists|exfalso].
  replace (size used + 2) with (S (S (size used))) in Hr by lia.
  apply uniquify_None in Hr as [_ Hr].
  pose proof (suffixed_pigeonhole used base (S (size used))) as Hp.
  assert (S (size used) ≤ size used); [|lia].
  apply Hp. intros j Hj. apply Hr. lia.
Qed.

(** The sanitizer always returns: a title outside the given set, which
    is the base when the base is free and otherwise the candidate of the
    first counter whose candidate is free. *)
Lemma sanitize_sheet_name_spec name used :
  ∃ t, sanitize_sheet_name name used = Some (t, {[t]} ∪ used) ∧ (t ∉ used) ∧
    (((sheet_base name ∉ used) ∧ t = sheet_base name) ∨
     (sheet_base name ∈ used ∧
      ∃ k, (1 ≤ k ≤ N.of_nat (size used) + 1)%N ∧ t = suffixed (sheet_base name) k ∧
        ∀ j, (1 ≤ j < k)%N → suffixed (sheet_base name) j ∈ used)).
Proof.
  unfold sanitize_sheet_name.
  destruct (uniquify_total used (sheet_base name) (sheet_base name)) as [t Ht].
  exists t. rewrite Ht. split; [done|].
  apply uniquify_Some in Ht as [Hout [?|[Hin (k & Hk & -> & Hlt)]]]; [by auto|].
  split; [done|]. right. split; [done|]. exists k. split; [|done].
  split; [done|].
  pose proof (suffixed_pigeonhole used (sheet_base name) (N.to_nat k - 1)) as Hp.
  assert (N.to_nat k - 1 ≤ size used); [|lia].
  apply Hp. intros j Hj. apply Hlt. lia.
Qed.

Lemma sanitize_sheet_name_total name used :
  is_Some (sanitize_sheet_name name used).
Proof. destruct (sanitize_sheet_name_spec name used) as (t & -> & _). by eexists. Qed.

End LoopFacts.

(** ** Facts about [os.path] *)

Module OsPathFacts.
Import PyStr PyStrFacts OsPath.

Lemma app_assoc s1 s2 s3 : (s1 +:+ s2) +:+ s3 = s1 +:+ (s2 +:+ s3).
Proof. apply chars_inj. by rewrite !chars_app, List.app_assoc. Qed.

Lemma take_app_length s1 s2 : take (String.length s1) (s1 +:+ s2) = s1.
Proof.
  induction s1 as [|c s1 IH]; [by destruct s2|].
  rewrite app_cons. simpl. by rewrite IH.
Qed.

Lemma drop_app_length s1 s2 : drop (String.length s1) (s1 +:+ s2) = s2.
Proof. induction s1 as [|c s1 IH]; [done|]. by rewrite app_cons. Qed.

Lemma get_app_length s1 c s2 :
  String.get (String.length s1) (s1 +:+ String c s2) = Some c.
Proof. induction s1 as [|a s1 IH]; [done|]. by rewrite app_cons. Qed.

Lemma rfind_ge c s : (-1 ≤ rfind c s)%Z.
Proof. induction s as [|a s IH]; simpl; [lia|]. repeat case_match; lia. Qed.

Lemma rfind_lt c s : (rfind c s < Z.of_nat (String.length s))%Z.
Proof.
  induction s as [|a s IH]; simpl String.length; simpl rfind; [lia|].
  repeat case_match; lia.
Qed.

Lemma rfind_notin c s : c ∉ chars s → rfind c s = (-1)%Z.
Proof.
  unfold chars. induction s as [|a s IH]; [done|]. simpl.
  rewrite not_elem_of_cons. intros [Hne Hs]. rewrite (IH Hs). simpl.
  by case_decide.
Qed.

(** The last occurrence: nothing after it is the character. *)
Lemma rfind_app_last c s1 s2 :
  c ∉ chars s2 → rfind c (s1 +:+ String c s2) = Z.of_nat (String.length s1).
Proof.
  intros Hs2. induction s1 as [|a s1 IH].
  - rewrite app_nil_l. simpl. rewrite (rfind_notin _ _ Hs2). simpl.
    by case_decide.
  - rewrite app_cons. simpl rfind. rewrite IH.
    rewrite (proj2 (Z.leb_le 0 _)) by lia. simpl String.length. lia.
Qed.

Lemma rfind_app_notin c s1 s2 :
  c ∉ chars s2 → rfind c (s1 +:+ s2) = rfind c s1.
Proof.
  intros Hs2. induction s1 as [|a s1 IH].
  - rewrite app_nil_l. by rewrite rfind_notin.
  - rewrite app_cons. simpl. by rewrite IH.
Qed.

(** The scan over the characters of [stem], which starts where [pre]
    ends, finds a character other than the dot when there is one. *)
Lemma has_stem_app pre stem rest :
  has_stem (pre +:+ stem +:+ rest) (String.length pre) (String.length stem)
  = negb (all_dots stem).
Proof.
  revert pre. induction stem as [|c stem IH]; intros pre; [done|].
  simpl String.length. simpl has_stem.
  rewrite app_cons, get_app_length.
  unfold all_dots, chars. simpl forallb.
  destruct (decide (c = extsep)) as [->|Hne].
  - rewrite bool_decide_true by done. simpl.
    specialize (IH (pre +:+ String extsep "")).
    rewrite length_append in IH. simpl in IH.
    replace (String.length pre + 1) with (S (String.length pre)) in IH by lia.
    rewrite app_assoc in IH. exact IH.
  - by rewrite bool_decide_false.
Qed.

Lemma rfind_sep_prefix dir seg :
  is_dir_prefix dir → sep ∉ chars seg →
  (rfind sep (dir +:+ seg) + 1 = Z.of_nat (String.length dir))%Z.
Proof.
  intros [->|[d ->]] Hseg.
  - rewrite app_nil_l, rfind_notin by done. done.
  - rewrite app_assoc.
    change ("/" +:+ seg) with (String sep seg).
    rewrite rfind_app_last by done. rewrite length_append. simpl. lia.
Qed.

(** The base name is what follows the directory prefix. *)
Lemma basename_app dir seg :
  is_dir_prefix dir → sep ∉ chars seg → basename (dir +:+ seg) = seg.
Proof.
  intros Hdir Hseg. unfold basename, slice_from.
  rewrite rfind_sep_prefix by done. rewrite Nat2Z.id.
  apply drop_app_length.
Qed.

(** [splitext] on a path whose last segment is [stem.ext]. *)
Lemma splitext_dotted dir stem ext :
  is_dir_prefix dir → sep ∉ chars stem → sep ∉ chars ext → extsep ∉ chars ext →
  splitext (dir +:+ stem +:+ "." +:+ ext)
  = if all_dots stem then (dir +:+ stem +:+ "." +:+ ext, "")
    else (dir +:+ stem, "." +:+ ext).
Proof.
  intros Hdir Hstem Hext Hdot. unfold splitext.
  assert (sep ∉ chars (stem +:+ "." +:+ ext)) as Hseg.
  { rewrite !chars_app, !elem_of_app. unfold chars at 2. simpl.
    rewrite elem_of_cons, elem_of_nil. intros [?|[[?|[]]|?]]; done. }
  pose proof (rfind_sep_prefix dir _ Hdir Hseg) as Hsep.
  assert (rfind extsep (dir +:+ stem +:+ "." +:+ ext)
          = Z.of_nat (String.length (dir +:+ stem))) as Hd.
  { rewrite <-app_assoc. change ("." +:+ ext) with (String extsep ext).
    by apply rfind_app_last. }
  rewrite Hd, length_append.
  replace (rfind sep (dir +:+ stem +:+ "." +:+ ext) + 1)%Z
    with (Z.of_nat (String.length dir)) by lia.
  replace (Z.of_nat (String.length dir + String.length stem) - Z.of_nat (String.length dir))%Z
    with (Z.of_nat (String.length stem)) by lia.
  rewrite !Nat2Z.id, has_stem_app.
  destruct (all_dots stem) eqn:Hall; simpl.
  - by rewrite andb_false_r.
  - rewrite andb_true_r.
    rewrite (proj2 (Z.ltb_lt _ _)) by lia.
    unfold slice_to, slice_from.
    rewrite (proj2 (Z.leb_le 0 _)) by lia. rewrite Nat2Z.id.
    rewrite <-length_append, <-app_assoc.
    by rewrite take_app_length, drop_app_length.
Qed.

(** [splitext] on a path whose last segment has no dot. *)
Lemma splitext_undotted dir seg :
  is_dir_prefix dir → sep ∉ chars seg → extsep ∉ chars seg →
  splitext (dir +:+ seg) = (dir +:+ seg, "").
Proof.
  intros Hdir Hsep Hdot. unfold splitext.
  pose proof (rfind_sep_prefix dir _ Hdir Hsep) as Hs.
  rewrite (rfind_app_notin extsep dir seg Hdot).
  pose proof (rfind_lt extsep dir).
  rewrite (proj2 (Z.ltb_ge _ _)); [done|]. lia.
Qed.

End OsPathFacts.

(** ** Facts about the builder *)

Module BuilderFacts.
Import PyStr PyStrFacts SanitizerFacts LoopFacts.

Lemma add_rows_nil ws : add_rows [] ws = ws.
Proof. destruct ws. unfold add_rows. simpl. by rewrite app_nil_r. Qed.

Lemma add_rows_cons r rs ws : add_rows (r :: rs) ws = add_rows rs (add_row r ws).
Proof. unfold add_rows, add_row. simpl. by rewrite <-List.app_assoc. Qed.

Lemma alter_add_rows_nil (i : nat) (l : list worksheet) : alter (add_rows []) i l = l.
Proof.
  apply list_alter_id, add_rows_nil.
Qed.

Lemma alter_add_rows_cons r rs (i : nat) (l : list worksheet) :
  alter (add_rows (r :: rs)) i l = alter (add_rows rs) i (alter (add_row r) i l).
Proof.
  rewrite list_alter_alter_eq. apply list_alter_ext; [|done].
  intros x _. apply add_rows_cons.
Qed.

Lemma for_rows_eq effects step body st :
  for_rows (Gen effects step) body st
  = match step with
    | Yield r rest =>
        bind (body r) (λ _, for_rows rest body) (logged st effects)
    | StopIteration => Some (Returned (), logged st effects)
    | Raise e => Some (Raised e, logged st effects)
    end.
Proof. by destruct step. Qed.

(** The loop over a generator is the repeated request for its next row. *)
Lemma for_rows_by_next g body st :
  for_rows g body st
  = (let* r := next g in
     match r with
     | Some (r, rest) => do body r then for_rows rest body
     | None => ret ()
     end)%stmt st.
Proof. by destruct g as [effects [r rest| |e]]. Qed.

Lemma for_each_cons {A} (x : A) xs body st :
  for_each (x :: xs) body st = bind (body x) (λ _, for_each xs body) st.
Proof. done. Qed.

Lemma ws_append_eq w ws r st :
  ws_append w ws r st
  = match append_error w r with
    | Some e => Some (Raised e, st)
    | None => Some (Returned (), {| wb := alter (add_row r) ws (wb st);
                                    used_names := used_names st;
                                    log := log st ++ [EvAppend ws r] |})
    end.
Proof. unfold ws_append. by destruct (append_error w r). Qed.

(** The loop over a generator always ends; it changes one sheet, by the
    rows of [read_result], and leaves the used names alone. *)
Lemma for_rows_spec w ws g st :
  for_rows g (ws_append w ws) st
  = Some (as_outcome (read_result w g).2,
          {| wb := alter (add_rows (read_result w g).1) ws (wb st);
             used_names := used_names st;
             log := log st ++ read_events w ws g |}).
Proof.
  revert st.
  induction g as [effects step IH | r rest IH | | e]
    using generator_mut
    with (P0 := λ step, ∀ effects st,
      for_rows (Gen effects step) (ws_append w ws) st
      = Some (as_outcome (read_result w (Gen effects step)).2,
              {| wb := alter (add_rows (read_result w (Gen effects step)).1) ws (wb st);
                 used_names := used_names st;
                 log := log st ++ read_events w ws (Gen effects step) |}));
    intros; [apply IH|rewrite for_rows_eq..].
  - unfold bind. rewrite ws_append_eq. simpl read_result. simpl read_events.
    destruct (append_error w r) as [e|] eqn:Happ; simpl.
    + by rewrite alter_add_rows_nil, app_nil_r.
    + rewrite IH. simpl. rewrite alter_add_rows_cons. do 3 f_equal.
      rewrite <-!List.app_assoc. done.
  - simpl. by rewrite alter_add_rows_nil, app_nil_r.
  - simpl. by rewrite alter_add_rows_nil, app_nil_r.
Qed.

Lemma alter_last (f : worksheet → worksheet) (l : list worksheet) (x : worksheet) :
  alter f (length l) (l ++ [x]) = l ++ [f x].
Proof.
  replace (length l) with (length l + 0) by lia. by rewrite alter_app_r.
Qed.

Lemma print_if_eq verbose line st :
  print_if verbose line st
  = Some (Returned (), logged st (if verbose then [EvPrint line] else [])).
Proof.
  destruct verbose; unfold print_if, print, emit, ret, logged; simpl; [done|].
  destruct st. simpl. by rewrite app_nil_r.
Qed.

(** One turn of the loop over the files never raises: it takes a fresh
    title, adds one sheet with the rows read before any failure, and
    returns. *)
Lemma process_file_spec w encoding delimiter verbose csv_path st :
  ∃ t,
    sanitize_sheet_name (OsPath.basename csv_path) (used_names st)
    = Some (t, {[t]} ∪ used_names st) ∧
    (t ∉ used_names st) ∧
    process_file w encoding delimiter verbose csv_path st
    = Some (Returned (),
            {| wb := wb st ++ [sheet_of w encoding delimiter t csv_path];
               used_names := {[t]} ∪ used_names st;
               log := log st ++ file_events w encoding delimiter verbose
                                  (length (wb st)) t csv_path |}).
Proof.
  destruct (sanitize_sheet_name_spec (OsPath.basename csv_path) (used_names st))
    as (t & Ht & Hout & _).
  exists t. split; [done|]. split; [done|].
  unfold process_file, bind at 1, sanitize. rewrite Ht. simpl.
  unfold bind at 1, create_sheet. simpl.
  unfold bind at 1. rewrite print_if_eq.
  unfold try_except, read_into, bind at 1, read_csv_rows, ret.
  rewrite for_rows_spec. unfold file_events, sheet_of, logged. simpl.
  rewrite alter_last. unfold add_rows. simpl.
  destruct (read_result w _).2 as [e|]; simpl.
  - rewrite print_if_eq. unfold logged. simpl.
    do 3 f_equal. rewrite <-!List.app_assoc. simpl. done.
  - do 3 f_equal. rewrite <-!List.app_assoc. simpl. by rewrite app_nil_r.
Qed.

(** After a call the base of the name is in the set: as the title, or
    because it was there before. *)
Lemma sanitize_sheet_name_base name (used : gset string) t used' :
  sanitize_sheet_name name used = Some (t, used') →
  used' = {[t]} ∪ used ∧ (t ∉ used) ∧ sheet_base name ∈ used' ∧
  (sheet_base name ∈ used → ∃ k, (1 ≤ k)%N ∧ t = suffixed (sheet_base name) k).
Proof.
  destruct (sanitize_sheet_name_spec name used)
    as (t' & Ht & Hout & Hcases).
  rewrite Ht. intros [= <- <-]. split; [done|]. split; [done|].
  destruct Hcases as [[Hfree ->]|[Hin (k & Hk & -> & _)]].
  - split; [by apply elem_of_union_l, elem_of_singleton|]. done.
  - split; [by apply elem_of_union_r|]. intros _. exists k. split; [lia|done].
Qed.

Lemma sanitize_all_cons name names (used : gset string) :
  sanitize_all (name :: names) used
  = match sanitize_sheet_name name used with
    | Some (t, used') =>
        match sanitize_all names used' with
        | Some (ts, used'') => Some (t :: ts, used'')
        | None => None
        end
    | None => None
    end.
Proof.
  simpl. destruct (sanitize_sheet_name name used) as [[t used']|]; [|done].
  simpl. by destruct (sanitize_all names used') as [[ts used'']|].
Qed.

(** Calls that share one set return pairwise distinct titles, none of
    which was in the set at the start. *)
Lemma sanitize_all_spec names (used : gset string) :
  ∃ ts, sanitize_all names used = Some (ts, list_to_set ts ∪ used) ∧
    length ts = length names ∧ NoDup ts ∧ ∀ t, t ∈ ts → t ∉ used.
Proof.
  revert used. induction names as [|name names IH]; intros used.
  - exists []. simpl. split; [by rewrite (left_id_L ∅ (∪))|].
    split; [done|]. split; [constructor|]. intros t Ht. by apply elem_of_nil in Ht.
  - destruct (sanitize_sheet_name_spec name used) as (t & Ht & Hout & _).
    destruct (IH ({[t]} ∪ used)) as (ts & Hts & Hlen & Hnd & Hfresh).
    exists (t :: ts). rewrite sanitize_all_cons, Ht, Hts.
    split.
    { rewrite list_to_set_cons, (comm_L (∪) {[t]} (list_to_set ts)).
      by rewrite (assoc_L (∪)). }
    split; [simpl; by rewrite Hlen|]. split.
    + constructor; [|done]. intros Hin. apply Hfresh in Hin.
      by apply Hin, elem_of_union_l, elem_of_singleton.
    + intros t' [->|Hin]%elem_of_cons; [done|].
      apply Hfresh in Hin. intros Hu. by apply Hin, elem_of_union_r.
Qed.

(** A name whose base is already in the set gets a counter. *)
Lemma sanitize_all_lookup names (used : gset string) ts used' (j : nat) n :
  sanitize_all names used = Some (ts, used') →
  names !! j = Some n → sheet_base n ∈ used →
  ∃ k, (1 ≤ k)%N ∧ ts !! j = Some (suffixed (sheet_base n) k).
Proof.
  revert used ts j. induction names as [|name names IH]; intros used ts j Hall Hj Hin;
    [done|].
  rewrite sanitize_all_cons in Hall.
  destruct (sanitize_sheet_name name used) as [[t used1]|] eqn:Ht; [|done].
  destruct (sanitize_all names used1) as [[ts' used2]|] eqn:Hts; [|done].
  injection Hall as <- <-.
  apply sanitize_sheet_name_base in Ht as (-> & Hout & Hbase & Hsuf).
  destruct j as [|j]; simpl in *.
  - injection Hj as ->. destruct (Hsuf Hin) as (k & Hk & ->). by exists k.
  - eapply IH; [done..|]. by apply elem_of_union_r.
Qed.

(** Of two names with the same base, the later one gets a counter. *)
Lemma sanitize_all_collision names (used : gset string) ts used' (i j : nat) n m :
  sanitize_all names used = Some (ts, used') →
  i < j → names !! i = Some n → names !! j = Some m →
  sheet_base n = sheet_base m →
  ∃ k, (1 ≤ k)%N ∧ ts !! j = Some (suffixed (sheet_base m) k).
Proof.
  revert used ts i j. induction names as [|name names IH];
    intros used ts i j Hall Hij Hi Hj Hsame; [done|].
  rewrite sanitize_all_cons in Hall.
  destruct (sanitize_sheet_name name used) as [[t used1]|] eqn:Ht; [|done].
  destruct (sanitize_all names used1) as [[ts' used2]|] eqn:Hts; [|done].
  injection Hall as <- <-.
  destruct j as [|j]; [lia|]. simpl in Hj. simpl.
  destruct i as [|i]; simpl in Hi.
  - injection Hi as ->.
    apply sanitize_sheet_name_base in Ht as (-> & _ & Hbase & _).
    eapply sanitize_all_lookup; [done..|]. by rewrite <-Hsame.
  - eapply (IH _ _ i j); [done|lia|done..].
Qed.

(** The loop over the files never raises; it adds one sheet for each
    file, in order, with the titles of [sanitize_all] on the base names. *)
Lemma for_each_files_spec w encoding delimiter verbose files st :
  ∃ ts st',
    sanitize_all (OsPath.basename <$> files) (used_names st)
    = Some (ts, used_names st') ∧
    for_each files (process_file w encoding delimiter verbose) st
    = Some (Returned (), st') ∧
    wb st' = wb st ++ zip_with (sheet_of w encoding delimiter) ts files ∧
    log st `prefix_of` log st'.
Proof.
  revert st. induction files as [|p files IH]; intros st.
  - exists [], st. simpl. rewrite app_nil_r. done.
  - destruct (process_file_spec w encoding delimiter verbose p st)
      as (t & Ht & _ & Hp).
    set (st1 := {| wb := _; used_names := _; log := _ |}) in Hp.
    destruct (IH st1) as (ts & st' & Hts & Hloop & Hwb & Hlog).
    exists (t :: ts), st'.
    rewrite fmap_cons, sanitize_all_cons, Ht.
    change (used_names st1) with ({[t]} ∪ used_names st) in Hts. rewrite Hts.
    split; [done|]. split.
    + simpl. unfold bind. rewrite Hp. exact Hloop.
    + split.
      * rewrite Hwb. subst st1. simpl. by rewrite <-List.app_assoc.
      * etrans; [|exact Hlog]. subst st1. simpl. by apply prefix_app_r.
Qed.

End BuilderFacts.

(** ** Facts about [sorted] *)

Module SortFacts.

Section by_key.
Context (key : string → string).

Lemma key_le_total p q : String.leb (key p) (key q) = false → key_le key q p.
Proof.
  intros Hf. unfold key_le, String.le.
  destruct (String.leb_total (key p) (key q)) as [H|H]; [congruence|].
  by rewrite H.
Qed.

Lemma insert_sorted_perm x l : insert_sorted key x l ≡ₚ x :: l.
Proof.
  induction l as [|y l IH]; simpl; [done|].
  case_match; [done|]. rewrite IH. apply Permutation_swap.
Qed.

Lemma insert_sorted_HdRel a x l :
  key_le key a x → HdRel (key_le key) a l → HdRel (key_le key) a (insert_sorted key x l).
Proof.
  intros Hax Hal. destruct l as [|y l]; simpl; [by constructor|].
  case_match; constructor; [done|]. by inversion Hal.
Qed.

Lemma insert_sorted_Sorted x l :
  Sorted (key_le key) l → Sorted (key_le key) (insert_sorted key x l).
Proof.
  induction 1 as [|y l Hl IH Hhd]; simpl.
  - by repeat constructor.
  - destruct (String.leb (key x) (key y)) eqn:Hxy.
    + constructor; [by constructor|]. constructor.
      unfold key_le, String.le. by rewrite Hxy.
    + constructor; [done|].
      apply insert_sorted_HdRel; [|done]. by apply key_le_total.
Qed.

Lemma sorted_perm l : sorted key l ≡ₚ l.
Proof.
  unfold sorted. induction l as [|x l IH]; simpl; [done|].
  by rewrite insert_sorted_perm, IH.
Qed.

Lemma sorted_Sorted l : Sorted (key_le key) (sorted key l).
Proof.
  unfold sorted. induction l as [|x l IH]; simpl; [constructor|].
  by apply insert_sorted_Sorted.
Qed.

Global Instance key_le_trans : Transitive (key_le key).
Proof. intros p q r. unfold key_le. apply (transitivity (R := String.le)). Qed.

Lemma sorted_StronglySorted l : StronglySorted (key_le key) (sorted key l).
Proof. apply Sorted_StronglySorted; [apply _|apply sorted_Sorted]. Qed.

End by_key.

End SortFacts.

(** ** The file discoverer *)

Module DiscovererClaims.
Import SortFacts.

(** C6.  For every directory and either value of the recursive flag, the
    discoverer returns the paths of the names that end in [.csv] when
    lowered, among the entries of the directory, or among the files of
    every directory of the tree, each exactly as often as it is listed,
    in ascending order of the lowered base name; the direct children
    [B.csv], [a.csv] and [C.CSV] come out as [a.csv], [B.csv], [C.CSV]. *)
Theorem find_csv_files_sorted input_dir entries recursive :
  ∃ files,
    find_csv_files input_dir (Dir entries) recursive = Returned files ∧
    files ≡ₚ
      (if recursive
       then flat_map
              (λ t, OsPath.join t.1.1 <$>
                    List.filter (λ fn, PyStr.endswith (PyStr.lower fn) ".csv") t.2)
              (walk input_dir (Dir entries))
       else OsPath.join input_dir <$>
            List.filter (λ fn, PyStr.endswith (PyStr.lower fn) ".csv") (entries.*1)) ∧
    StronglySorted
      (λ p q, String.le (PyStr.lower (OsPath.basename p))
                        (PyStr.lower (OsPath.basename q))) files ∧
    find_csv_files "in" (Dir [("B.csv", File); ("a.csv", File); ("C.CSV", File)]) false
    = Returned ["in/a.csv"; "in/B.csv"; "in/C.CSV"].
Proof.
  destruct recursive; eexists; (split; [reflexivity|]);
    (split; [apply sorted_perm|]);
    (split; [apply (sorted_StronglySorted sort_key)|by vm_compute]).
Qed.

End DiscovererClaims.

(** ** The sanitizer: the title is valid, and collisions get a counter *)

Module SanitizerClaims.
Import PyStr PyStrFacts Decimal SanitizerFacts LoopFacts.

Lemma capacity_below_room (n : nat) (k : N) :
  (N.of_nat n ≤ PY_SSIZE_T_MAX)%N → (k ≤ N.of_nat n + 1)%N → (k < 10 ^ 30)%N.
Proof.
  unfold PY_SSIZE_T_MAX. intros Hn Hk.
  assert (2 ^ 63 < 10 ^ 30)%N by done. lia.
Qed.

(** While the counter has at most 30 digits, the slice of the base is an
    ordinary prefix. *)
Lemma suffixed_take base k :
  (k < 10 ^ 30)%N →
  suffixed base k
  = take (31 - String.length ("_" +:+ str k)) base +:+ "_" +:+ str k.
Proof.
  intros Hk. rewrite suffixed_unfold. f_equal.
  pose proof (str_length 30 k ltac:(lia) Hk) as Hd.
  unfold slice_to, MAX_SHEET_LEN.
  rewrite (proj2 (Z.leb_le 0 _)) by lia.
  f_equal. change (String.length ("_" +:+ str k)) with (S (String.length (str k))).
  lia.
Qed.

(** Past 30 digits the suffix alone is longer than the limit: the counter
    [10 ^ 30] gives 32 characters. *)
Example suffixed_past_room :
  suffixed "a" (10 ^ 30) = "_1000000000000000000000000000000" ∧
  String.length (suffixed "a" (10 ^ 30)) = 32.
Proof. by vm_compute. Qed.

(** C1.  For every name and every used-names set a Python process can
    hold, the sanitizer returns a title that is not empty, has at most 31
    characters, and contains none of the characters
    [ ] : * ? / \ and the apostrophe. *)
Theorem sanitize_title_valid name (used : gset string) :
  (N.of_nat (size used) ≤ PY_SSIZE_T_MAX)%N →
  ∃ t, sanitize_sheet_name name used = Some (t, {[t]} ∪ used) ∧
       t ≠ "" ∧
       (Z.of_nat (String.length t) ≤ MAX_SHEET_LEN)%Z ∧
       ∀ c, c ∈ ILLEGAL_SHEET_CHARS → c ∉ chars t.
Proof.
  intros Hcap.
  destruct (sanitize_sheet_name_spec name used)
    as (t & Ht & _ & [[_ ->]|[_ (k & Hk & -> & _)]]); eexists; (split; [exact Ht|]).
  - split; [apply sheet_base_nonempty|]. split; [apply sheet_base_length|].
    intros c Hc Hin. pose proof (sheet_base_legal name) as Hl.
    rewrite Forall_forall in Hl. by apply Hl in Hin.
  - split; [apply suffixed_nonempty|].
    split; [apply suffixed_length; eapply capacity_below_room; [done|lia]|].
    intros c Hc Hin.
    pose proof (suffixed_legal _ k (sheet_base_legal name)) as Hl.
    rewrite Forall_forall in Hl. by apply Hl in Hin.
Qed.

Lemma sanitize_title_valid_witness :
  (N.of_nat (size ({["sales"]} : gset string)) ≤ PY_SSIZE_T_MAX)%N ∧
  ∃ t, sanitize_sheet_name "sales.csv" {["sales"]} = Some (t, {[t]} ∪ {["sales"]}) ∧
       t ≠ "" ∧
       (Z.of_nat (String.length t) ≤ MAX_SHEET_LEN)%Z ∧
       ∀ c, c ∈ ILLEGAL_SHEET_CHARS → c ∉ chars t.
Proof.
  split; [by vm_compute|]. apply sanitize_title_valid. by vm_compute.
Defined.

(** C7.  When the base name is already in a used-names set a Python
    process can hold, the title is the base cut to leave room for the
    suffix, followed by the whole suffix [_k]; [k] is the first counter
    from 1 upwards whose candidate, as a whole string, is not in the set;
    and the title has at most 31 characters. *)
Theorem collision_gets_first_free_counter name (used : gset string) :
  (N.of_nat (size used) ≤ PY_SSIZE_T_MAX)%N →
  sheet_base name ∈ used →
  let candidate (j : N) :=
    take (31 - String.length ("_" +:+ str j)) (sheet_base name) +:+ "_" +:+ str j in
  ∃ k, (1 ≤ k)%N ∧
    sanitize_sheet_name name used = Some (candidate k, {[candidate k]} ∪ used) ∧
    (∀ j, (1 ≤ j < k)%N → candidate j ∈ used) ∧
    (candidate k ∉ used) ∧
    String.length ("_" +:+ str k) ≤ 31 ∧
    String.length (candidate k) ≤ 31.
Proof.
  intros Hcap Hin candidate.
  destruct (sanitize_sheet_name_spec name used)
    as (t & Ht & Hout & [[Hfree _]|[_ (k & Hk & -> & Hlt)]]); [done|].
  assert (∀ j, (j ≤ k)%N → suffixed (sheet_base name) j = candidate j) as Heq.
  { intros j Hj. apply suffixed_take. eapply capacity_below_room; [done|lia]. }
  exists k. split; [lia|]. rewrite <-(Heq k) by lia.
  split; [done|]. split.
  { intros j Hj. rewrite <-Heq by lia. by apply Hlt. }
  split; [done|].
  assert (k < 10 ^ 30)%N as Hroom by (eapply capacity_below_room; [done|lia]).
  split.
  - pose proof (str_length 30 k ltac:(lia) Hroom).
    change (String.length ("_" +:+ str k)) with (S (String.length (str k))). lia.
  - pose proof (suffixed_length (sheet_base name) k Hroom).
    unfold MAX_SHEET_LEN in *. lia.
Qed.

Lemma collision_gets_first_free_counter_witness :
  (N.of_nat (size ({["sales"; "sales_1"]} : gset string)) ≤ PY_SSIZE_T_MAX)%N ∧
  sheet_base "sales.csv" ∈ ({["sales"; "sales_1"]} : gset string) ∧
  let candidate (j : N) :=
    take (31 - String.length ("_" +:+ str j)) (sheet_base "sales.csv")
    +:+ "_" +:+ str j in
  ∃ k, (1 ≤ k)%N ∧
    sanitize_sheet_name "sales.csv" {["sales"; "sales_1"]}
    = Some (candidate k, {[candidate k]} ∪ {["sales"; "sales_1"]}) ∧
    (∀ j, (1 ≤ j < k)%N → candidate j ∈ ({["sales"; "sales_1"]} : gset string)) ∧
    (candidate k ∉ ({["sales"; "sales_1"]} : gset string)) ∧
    String.length ("_" +:+ str k) ≤ 31 ∧
    String.length (candidate k) ≤ 31.
Proof.
  split; [by vm_compute|]. split; [by vm_compute|].
  apply collision_gets_first_free_counter; by vm_compute.
Defined.

Example collision_sales :
  sanitize_sheet_name "sales.csv" {["sales"; "sales_1"]}
  = Some ("sales_2", {["sales_2"]} ∪ {["sales"; "sales_1"]}).
Proof. by vm_compute. Qed.

End SanitizerClaims.

(** ** The sanitizer: the extension *)

Module ExtensionClaims.
Import PyStr PyStrFacts OsPath OsPathFacts.

(** Closed membership goals over the characters of a literal. *)
Ltac by_decide := apply (bool_decide_unpack _); vm_compute; exact I.

(** C8, as the code has it.  Let the final path segment be [stem.ext],
    where [ext] has no dot.  When [stem] has a character other than the
    dot, the sanitizer works on the name without [.ext]: the last dot and
    the text after it are removed, and nothing more.  When [stem] is made
    of dots only, as in [.csv], nothing is removed. *)
Theorem extension_removed_once dir stem ext :
  is_dir_prefix dir → sep ∉ chars stem → sep ∉ chars ext → extsep ∉ chars ext →
  (all_dots stem = false →
     splitext (dir +:+ stem +:+ "." +:+ ext) = (dir +:+ stem, "." +:+ ext) ∧
     sheet_base (dir +:+ stem +:+ "." +:+ ext) = clean_name (dir +:+ stem)) ∧
  (all_dots stem = true →
     sheet_base (dir +:+ stem +:+ "." +:+ ext)
     = clean_name (dir +:+ stem +:+ "." +:+ ext)).
Proof.
  intros Hdir Hstem Hext Hdot. unfold sheet_base.
  rewrite (splitext_dotted dir stem ext) by done.
  split; intros ->; auto.
Qed.

Lemma extension_removed_once_witness :
  is_dir_prefix "" ∧ (sep ∉ chars "name.backup") ∧ (sep ∉ chars "csv") ∧
  (extsep ∉ chars "csv") ∧
  (all_dots "name.backup" = false →
     splitext ("" +:+ "name.backup" +:+ "." +:+ "csv") = ("" +:+ "name.backup", "." +:+ "csv") ∧
     sheet_base ("" +:+ "name.backup" +:+ "." +:+ "csv") = clean_name ("" +:+ "name.backup")) ∧
  (all_dots "name.backup" = true →
     sheet_base ("" +:+ "name.backup" +:+ "." +:+ "csv")
     = clean_name ("" +:+ "name.backup" +:+ "." +:+ "csv")).
Proof.
  split; [by left|]. split; [by_decide|]. split; [by_decide|]. split; [by_decide|].
  apply extension_removed_once; [by left|by_decide..].
Defined.

Example extension_backup :
  sheet_base "name.backup.csv" = "name.backup" ∧ sheet_base "sales.csv" = "sales".
Proof. by vm_compute. Qed.

(** C8, as the claim words it, fails: the name [.csv] ends in a
    dot-suffix and keeps it. *)
Lemma hidden_name_keeps_suffix :
  splitext ".csv" = (".csv", "") ∧
  sanitize_sheet_name ".csv" ∅ = Some (".csv", {[".csv"]} ∪ ∅).
Proof. by vm_compute. Qed.

End ExtensionClaims.

(** ** The dialect sniffer *)

Module SnifferClaims.

(** C4, as the code has it.  Without an override (none, or the empty
    string) the sniffer never raises: it returns the sniffed dialect, and
    the comma dialect whenever the sniffing raises.  With an override
    that is one character the CSV module accepts as a delimiter it
    returns too. *)
Theorem sniff_dialect_returns w sample provided_delimiter :
  acceptable w provided_delimiter →
  ∃ d, (sniff_dialect w sample provided_delimiter).2 = Returned d ∧
    (truthy provided_delimiter = None →
       match Sniffer_sniff w (decode_ignore w sample) [","; ";"; tab; "|"] with
       | inr sniffed => d = sniffed
       | inl _ => d = excel ∧ delimiter d = ","
       end).
Proof.
  unfold acceptable, sniff_dialect. intros Hok.
  destruct (truthy provided_delimiter) as [[|c [|c' s]]|] eqn:Ht; try done.
  - simpl. rewrite Hok. eexists. split; [done|]. done.
  - simpl. destruct (Sniffer_sniff w _ _) as [e|sniffed]; eexists; by split.
Qed.

Lemma sniff_dialect_returns_witness :
  acceptable demo None ∧
  ∃ d, (sniff_dialect demo [] None).2 = Returned d ∧
    (truthy None = None →
       match Sniffer_sniff demo (decode_ignore demo []) [","; ";"; tab; "|"] with
       | inr sniffed => d = sniffed
       | inl _ => d = excel ∧ delimiter d = ","
       end).
Proof. split; [exact I|]. apply sniff_dialect_returns. exact I. Defined.

(** An override of two characters or more raises, whatever the sample. *)
Lemma long_override_raises w sample c c' s :
  sniff_dialect w sample (Some (String c (String c' s)))
  = ([], Raised (bad_delimiter w (String c (String c' s)))).
Proof. done. Qed.

(** C4, as the claim words it, fails: an override of two characters makes
    the creation of the dialect raise, outside the [try] block. *)
Lemma sniff_dialect_raises_on_long_override :
  sniff_dialect demo [] (Some ";;")
  = ([], Raised (Exception "Error"
                   (dq +:+ "delimiter" +:+ dq +:+ " must be a 1-character string"))).
Proof. reflexivity. Qed.

(** C5, as the code has it.  With an override of one character that the
    CSV module accepts, the sniffer returns the comma dialect with the
    override as its delimiter; with any override that is not empty it
    calls no sniffer, and the sample has no influence on what it does. *)
Theorem override_honoured w sample (c : ascii) :
  delimiter_error w c = None →
  (∃ d, sniff_dialect w sample (Some (String c "")) = ([], Returned d) ∧
        delimiter d = String c "" ∧ quotechar d = quotechar excel) ∧
  (∀ override sample', override ≠ "" →
     (sniff_dialect w sample (Some override)).1 = [] ∧
     sniff_dialect w sample (Some override) = sniff_dialect w sample' (Some override)).
Proof.
  intros Hok. split.
  - unfold sniff_dialect. simpl. rewrite Hok. eexists. by split.
  - intros [|c' s] sample' Hne; [done|]. unfold sniff_dialect. by simpl.
Qed.

Lemma override_honoured_witness :
  delimiter_error demo ";"%char = None ∧
  (∃ d, sniff_dialect demo [Byte.x61; Byte.x2c; Byte.x62] (Some (String ";"%char ""))
        = ([], Returned d) ∧
        delimiter d = String ";"%char "" ∧ quotechar d = quotechar excel) ∧
  (∀ override sample', override ≠ "" →
     (sniff_dialect demo [Byte.x61; Byte.x2c; Byte.x62] (Some override)).1 = [] ∧
     sniff_dialect demo [Byte.x61; Byte.x2c; Byte.x62] (Some override)
     = sniff_dialect demo sample' (Some override)).
Proof. split; [reflexivity|]. apply override_honoured. reflexivity. Defined.

(** C5, as the claim words it, fails: for the override [ab] no dialect is
    returned, and for the empty override the sample is sniffed. *)
Lemma override_not_honoured :
  (∀ d, (sniff_dialect demo [Byte.x61; Byte.x2c; Byte.x62] (Some "ab")).2 ≠ Returned d) ∧
  (sniff_dialect demo [Byte.x61; Byte.x2c; Byte.x62] (Some "")).1 = [EvSniff "a,b"].
Proof. split; [intros d Hd; discriminate Hd|reflexivity]. Qed.

End SnifferClaims.

(** ** The workbook builder *)

Module BuilderClaims.
Import PyStr PyStrFacts SanitizerFacts LoopFacts OsPathFacts BuilderFacts.

Lemma titles_zip w encoding delimiter ts files :
  length ts = length files →
  title <$> zip_with (sheet_of w encoding delimiter) ts files = ts.
Proof.
  revert files. induction ts as [|t ts IH]; intros [|p files] Hlen;
    simplify_eq/=; [done|]. by rewrite IH.
Qed.

(** The titles of the sheets the loop adds to an empty workbook. *)
Lemma loop_titles w encoding delimiter verbose files :
  ∃ ts st',
    for_each files (process_file w encoding delimiter verbose) initial
    = Some (Returned (), st') ∧
    sanitize_all (OsPath.basename <$> files) ∅ = Some (ts, used_names st') ∧
    title <$> wb st' = ts ∧ length ts = length files ∧ NoDup ts.
Proof.
  destruct (for_each_files_spec w encoding delimiter verbose files initial)
    as (ts & st' & Hts & Hloop & Hwb & _).
  destruct (sanitize_all_spec (OsPath.basename <$> files) ∅)
    as (ts' & Hts' & Hlen & Hnd & _).
  simpl in Hts. rewrite Hts in Hts'. injection Hts' as <- _.
  rewrite length_fmap in Hlen.
  exists ts, st'. split; [done|]. split; [done|].
  split; [|done]. rewrite Hwb. simpl. by apply titles_zip.
Qed.

(** C2.  The sanitizer returns a title that is not in the set it is
    given, and the set it leaves is the given one with the title added;
    so the titles of any sequence of names sanitized against one shared
    set are pairwise distinct, and so are the titles of the sheets the
    builder makes, whatever the files. *)
Theorem titles_pairwise_distinct :
  (∀ name (used : gset string),
     ∃ t, sanitize_sheet_name name used = Some (t, {[t]} ∪ used) ∧ (t ∉ used)) ∧
  (∀ names (used : gset string),
     ∃ ts, sanitize_all names used = Some (ts, list_to_set ts ∪ used) ∧
       length ts = length names ∧ NoDup ts ∧ ∀ t, t ∈ ts → t ∉ used) ∧
  (∀ w encoding delimiter verbose files,
     ∃ st', for_each files (process_file w encoding delimiter verbose) initial
            = Some (Returned (), st') ∧
       length (wb st') = length files ∧ NoDup (title <$> wb st')).
Proof.
  split; [|split].
  - intros name used.
    destruct (sanitize_sheet_name_spec name used) as (t & Ht & Hout & _). eauto.
  - apply sanitize_all_spec.
  - intros w encoding delimiter verbose files.
    destruct (loop_titles w encoding delimiter verbose files)
      as (ts & st' & Hloop & _ & Htitles & Hlen & Hnd).
    exists st'. split; [done|]. rewrite Htitles. split; [|done].
    by rewrite <-Hlen, <-Htitles, length_fmap.
Qed.

(** C9.  The titles of the sheets are those of the sanitizer on the base
    names of the files, and the base name of a path is what follows its
    directories; so two lists of files with the same base names get the
    same titles, and of two files with the same base name, the later one
    gets the base followed by a counter. *)
Theorem title_from_base_filename w encoding delimiter verbose files :
  ∃ ts st',
    for_each files (process_file w encoding delimiter verbose) initial
    = Some (Returned (), st') ∧
    title <$> wb st' = ts ∧
    sanitize_all (OsPath.basename <$> files) ∅ = Some (ts, used_names st') ∧
    (∀ dir seg, is_dir_prefix dir → OsPath.sep ∉ chars seg →
       OsPath.basename (dir +:+ seg) = seg) ∧
    (∀ files', OsPath.basename <$> files' = OsPath.basename <$> files →
       ∃ st'', for_each files' (process_file w encoding delimiter verbose) initial
               = Some (Returned (), st'') ∧ title <$> wb st'' = ts) ∧
    (∀ (i j : nat) p q,
       i < j → files !! i = Some p → files !! j = Some q →
       OsPath.basename p = OsPath.basename q →
       ∃ k, (1 ≤ k)%N ∧
         ts !! j = Some (suffixed (sheet_base (OsPath.basename q)) k)).
Proof.
  destruct (loop_titles w encoding delimiter verbose files)
    as (ts & st' & Hloop & Hall & Htitles & Hlen & Hnd).
  exists ts, st'. split; [done|]. split; [done|]. split; [done|].
  split; [apply basename_app|]. split.
  - intros files' Hsame.
    destruct (loop_titles w encoding delimiter verbose files')
      as (ts' & st'' & Hloop' & Hall' & Htitles' & _).
    rewrite Hsame, Hall in Hall'. injection Hall' as <- _. eauto.
  - intros i j p q Hij Hi Hj Hsame.
    eapply (sanitize_all_collision _ _ _ _ i j); [exact Hall|done|..].
    + by rewrite list_lookup_fmap, Hi.
    + by rewrite list_lookup_fmap, Hj.
    + by rewrite Hsame.
Qed.

Example same_name_in_two_directories :
  ∃ st', for_each ["in/east/x.csv"; "in/west/x.csv"]
           (process_file demo "utf-8-sig" None false) initial
         = Some (Returned (), st') ∧
    title <$> wb st' = ["x"; "x_1"].
Proof. eexists. split; [by vm_compute|done]. Qed.

(** What the [try] block does depends on the file and on [ws.append]
    only: it raises exactly when [read_result] has an exception. *)
Lemma read_into_eq w csv_path encoding delimiter ws st :
  read_into w csv_path encoding delimiter ws st
  = for_rows (read_csv_rows_body w csv_path encoding delimiter) (ws_append w ws) st.
Proof. done. Qed.

Lemma read_into_raises w csv_path encoding delimiter ws st e st' :
  read_into w csv_path encoding delimiter ws st = Some (Raised e, st') →
  (read_result w (read_csv_rows_body w csv_path encoding delimiter)).2 = Some e.
Proof.
  rewrite read_into_eq, for_rows_spec. intros [= Ho _].
  by destruct (read_result w _).2; simplify_eq/=.
Qed.

(** The run after the loop over the files. *)
Lemma combine_eq w input_dir output_path encoding delimiter recursive verbose
    p files st :
  find_csv_files input_dir (tree w) recursive = Returned (p :: files) →
  combine_csvs_to_excel w input_dir output_path encoding delimiter recursive verbose st
  = (do for_each (p :: files) (process_file w encoding delimiter verbose) then
     do makedirs w (outdir_of w output_path) then
     do save w output_path then
     print_if verbose ("Wrote Excel workbook: " +:+ output_path))%stmt st.
Proof.
  intros Hfind. unfold combine_csvs_to_excel, bind at 1, lift.
  rewrite Hfind. done.
Qed.

(** C3.  When the [try] block of a file raises an exception, the turn
    of the loop for that file returns all the same: the sheet made for
    the file stays in the workbook with the rows it got, the warning is
    printed when the run is verbose, and the loop goes on with the files
    that follow and returns; the run returns too when the output
    directory can be made and the workbook saved. *)
Theorem read_error_contained w encoding delimiter verbose csv_path e ws0 st0 st0' st :
  read_into w csv_path encoding delimiter ws0 st0 = Some (Raised e, st0') →
  ∃ t rs st',
    process_file w encoding delimiter verbose csv_path st = Some (Returned (), st') ∧
    wb st' = wb st ++ [{| title := t; rows := rs |}] ∧
    (verbose = true → last (log st') = Some (EvPrint (warning csv_path e))) ∧
    (∀ rest,
       for_each (csv_path :: rest) (process_file w encoding delimiter verbose) st
       = for_each rest (process_file w encoding delimiter verbose) st' ∧
       ∃ st'', for_each rest (process_file w encoding delimiter verbose) st'
               = Some (Returned (), st'') ∧
         length (wb st'') = length (wb st) + S (length rest)) ∧
    (∀ input_dir output_path recursive before after,
       find_csv_files input_dir (tree w) recursive
       = Returned (before ++ csv_path :: after) →
       makedirs_error w (outdir_of w output_path) = None →
       save_error w output_path = None →
       ∃ st'', combine_csvs_to_excel w input_dir output_path encoding delimiter
                 recursive verbose initial = Some (Returned (), st'') ∧
         length (wb st'') = length (before ++ csv_path :: after)).
Proof.
  intros Hraise%read_into_raises.
  destruct (process_file_spec w encoding delimiter verbose csv_path st)
    as (t & _ & _ & Hp).
  eexists t, _, _. split; [exact Hp|]. split; [done|]. split; [|split].
  - intros ->. simpl. unfold file_events. rewrite Hraise.
    rewrite !app_comm_cons, !List.app_assoc. by rewrite last_snoc.
  - intros rest. split.
    + rewrite for_each_cons. unfold bind at 1. by rewrite Hp.
    + edestruct (for_each_files_spec w encoding delimiter verbose rest)
        as (ts & st'' & Hts & Hloop & Hwb & _).
      exists st''. split; [exact Hloop|].
      destruct (sanitize_all_spec (OsPath.basename <$> rest)
                  ({[t]} ∪ used_names st)) as (ts' & Hts' & Hlen & _).
      simpl in Hts. rewrite Hts in Hts'. injection Hts' as <- _.
      rewrite Hwb. simpl. rewrite !length_app, length_zip_with. simpl.
      rewrite length_fmap in Hlen. lia.
  - intros input_dir output_path recursive before after Hfind Hmk Hsave.
    destruct (before ++ csv_path :: after) as [|p files] eqn:Hfiles.
    { by destruct before. }
    rewrite (combine_eq _ _ _ _ _ _ _ p files) by done.
    destruct (loop_titles w encoding delimiter verbose (p :: files))
      as (ts & st1 & Hloop & _ & Htitles & Hlen & _).
    unfold bind at 1. rewrite Hloop.
    unfold bind at 1, makedirs, bind at 1, emit. simpl. rewrite Hmk. simpl.
    unfold bind at 1, save, bind at 1, emit. simpl. rewrite Hsave. simpl.
    rewrite print_if_eq. eexists. split; [done|].
    change (length (wb st1) = length (p :: files)).
    by rewrite <-Hlen, <-Htitles, length_fmap.
Qed.

Lemma read_error_contained_witness :
  read_into demo "in/a.csv" "utf-8-sig" None 0 demo_sheet_a
  = Some (Raised (Exception "Error" "line contains NUL"),
          {| wb := [{| title := "a"; rows := [["x"; "1"]; ["y"; "2"]] |}];
             used_names := {["a"]};
             log := [EvOpen "in/a.csv" "rb"; EvSniff ""; EvOpen "in/a.csv" "r";
                     EvAppend 0 ["x"; "1"]; EvAppend 0 ["y"; "2"]] |}) ∧
  ∃ t rs st',
    process_file demo "utf-8-sig" None true "in/a.csv" initial
    = Some (Returned (), st') ∧
    wb st' = wb initial ++ [{| title := t; rows := rs |}] ∧
    (true = true →
       last (log st')
       = Some (EvPrint (warning "in/a.csv" (Exception "Error" "line contains NUL")))) ∧
    (∀ rest,
       for_each ("in/a.csv" :: rest) (process_file demo "utf-8-sig" None true) initial
       = for_each rest (process_file demo "utf-8-sig" None true) st' ∧
       ∃ st'', for_each rest (process_file demo "utf-8-sig" None true) st'
               = Some (Returned (), st'') ∧
         length (wb st'') = length (wb initial) + S (length rest)) ∧
    (∀ input_dir output_path recursive before after,
       find_csv_files input_dir (tree demo) recursive
       = Returned (before ++ "in/a.csv" :: after) →
       makedirs_error demo (outdir_of demo output_path) = None →
       save_error demo output_path = None →
       ∃ st'', combine_csvs_to_excel demo input_dir output_path "utf-8-sig" None
                 recursive true initial = Some (Returned (), st'') ∧
         length (wb st'') = length (before ++ "in/a.csv" :: after)).
Proof.
  split; [by vm_compute|].
  eapply (read_error_contained demo "utf-8-sig" None true "in/a.csv" _ 0 demo_sheet_a).
  by vm_compute.
Defined.

Example demo_run :
  ∃ st', combine_csvs_to_excel demo "in" "out/all.xlsx" "utf-8-sig" None false true
           initial = Some (Returned (), st') ∧
    wb st' = [{| title := "a"; rows := [["x"; "1"]; ["y"; "2"]] |};
              {| title := "B"; rows := [] |};
              {| title := "C"; rows := [["name"; "amt"]] |}].
Proof. eexists. split; [by vm_compute|done]. Qed.

(** C10.  Calling [read_csv_rows] performs nothing: it returns the
    generator and leaves the state as it is; the first request for a row
    starts with the opening of the file.  So when the file cannot be
    opened, the exception comes inside the [try] block, after the sheet
    has been created: the turn of the loop returns, the sheet of the file
    is in the workbook and has no rows, and the loop goes on. *)
Theorem unopenable_file_leaves_empty_sheet w encoding delimiter verbose csv_path st :
  (read_csv_rows w csv_path encoding delimiter st
   = Some (Returned (read_csv_rows_body w csv_path encoding delimiter), st) ∧
   ∃ o evs, next (read_csv_rows_body w csv_path encoding delimiter) st
            = Some (o, logged st (EvOpen csv_path "rb" :: evs))) ∧
  (∀ e, read_binary w csv_path = inl e →
     next (read_csv_rows_body w csv_path encoding delimiter) st
     = Some (Raised e, logged st [EvOpen csv_path "rb"]) ∧
     ∃ t st',
       process_file w encoding delimiter verbose csv_path st = Some (Returned (), st') ∧
       wb st' = wb st ++ [{| title := t; rows := [] |}] ∧
       log st' = log st ++ [EvCreateSheet t]
                 ++ (if verbose then [EvPrint (adding t csv_path)] else [])
                 ++ [EvOpen csv_path "rb"]
                 ++ (if verbose then [EvPrint (warning csv_path e)] else []) ∧
       ∀ rest,
         for_each (csv_path :: rest) (process_file w encoding delimiter verbose) st
         = for_each rest (process_file w encoding delimiter verbose) st').
Proof.
  split; [split; [done|]|].
  - unfold read_csv_rows_body.
    destruct (read_binary w csv_path) as [e|contents].
    { by eexists _, []. }
    destruct (sniff_dialect w (list.take 4096 contents) delimiter) as [sniffing [d|e]].
    + destruct (open_text w csv_path encoding) as [e|f].
      { by eexists _, _. }
      destruct (csv_reader w f d) as [[|r rs] [e|]]; by eexists _, _.
    + by eexists _, _.
  - intros e He. unfold read_csv_rows_body at 1. rewrite He. split; [done|].
    destruct (process_file_spec w encoding delimiter verbose csv_path st)
      as (t & _ & _ & Hp).
    unfold sheet_of, file_events, read_csv_rows_body in Hp.
    rewrite He in Hp. simpl in Hp.
    eexists t, _. split; [exact Hp|]. split; [done|]. split.
    + by destruct verbose.
    + intros rest. rewrite for_each_cons. unfold bind at 1. by rewrite Hp.
Qed.

Lemma unopenable_file_leaves_empty_sheet_witness :
  read_binary demo "in/B.csv" = inl (Exception "PermissionError" "Permission denied") ∧
  ∃ t st',
    process_file demo "utf-8-sig" None true "in/B.csv" initial = Some (Returned (), st') ∧
    wb st' = wb initial ++ [{| title := t; rows := [] |}] ∧
    log st' = log initial ++ [EvCreateSheet t]
              ++ [EvPrint (adding t "in/B.csv")]
              ++ [EvOpen "in/B.csv" "rb"]
              ++ [EvPrint (warning "in/B.csv"
                             (Exception "PermissionError" "Permission denied"))] ∧
    ∀ rest,
      for_each ("in/B.csv" :: rest) (process_file demo "utf-8-sig" None true) initial
      = for_each rest (process_file demo "utf-8-sig" None true) st'.
Proof.
  split; [reflexivity|].
  apply (proj2 (unopenable_file_leaves_empty_sheet demo "utf-8-sig" None true
                  "in/B.csv" initial)).
  reflexivity.
Defined.

End BuilderClaims.

(** ** More on the sanitizer *)

Module SanitizerMore.
Import PyStr PyStrFacts Decimal SanitizerFacts LoopFacts OsPath OsPathFacts BuilderFacts.

Lemma isspace_legal c : isspace c = true → legal c.
Proof.
  unfold legal. rewrite elem_of_ILLEGAL, !elem_of_cons, elem_of_nil.
  intros Hs Hc. decompose [or] Hc; subst; by vm_compute in Hs.
Qed.

Lemma map_replace_illegal_legal s :
  Forall legal (chars s) → map replace_illegal s = s.
Proof.
  unfold chars. induction s as [|c s IH]; [done|]. simpl.
  intros [Hc Hs]%Forall_cons. rewrite (IH Hs). f_equal.
  unfold replace_illegal. by case_decide.
Qed.

Lemma lstrip_by_all P s :
  Forall (λ c, P c = true) (chars s) → lstrip_by P s = "".
Proof.
  unfold chars. induction s as [|c s IH]; [done|]. simpl.
  intros [Hc Hs]%Forall_cons. rewrite Hc. by apply IH.
Qed.

Lemma rstrip_by_last P s b :
  last (chars s) = Some b → P b = false → rstrip_by P s = s.
Proof.
  unfold chars. induction s as [|c s IH]; [done|]. simpl.
  destruct s as [|c' s'].
  - simpl. intros [= ->] ->. done.
  - intros Hlast Hb. rewrite (IH Hlast Hb). done.
Qed.

Lemma strip_clean s a b :
  head (chars s) = Some a → last (chars s) = Some b →
  isspace a = false → isspace b = false → strip s = s.
Proof.
  intros Ha Hb Hsa Hsb. unfold strip.
  assert (lstrip_by isspace s = s) as ->.
  { destruct s as [|c s]; [done|]. unfold chars in Ha. simpl in *.
    injection Ha as ->. by rewrite Hsa. }
  by apply (rstrip_by_last _ _ b).
Qed.

(** When the base is free it is the title. *)
Lemma sanitize_free name (used : gset string) :
  sheet_base name ∉ used →
  sanitize_sheet_name name used = Some (sheet_base name, {[sheet_base name]} ∪ used).
Proof.
  intros Hfree.
  destruct (sanitize_sheet_name_spec name used)
    as (t & Ht & _ & [[_ ->]|[Hin _]]); done.
Qed.


(** X2.  A name that is only white space once its extension is dropped,
    the empty name included, gets the base [Sheet]. *)
Theorem blank_name_is_Sheet name :
  Forall (λ c, isspace c = true) (chars (splitext name).1) →
  sheet_base name = "Sheet".
Proof.
  intros Hblank. unfold sheet_base, clean_name.
  rewrite map_replace_illegal_legal.
  - unfold strip. rewrite (lstrip_by_all _ _ Hblank). done.
  - eapply Forall_impl; [exact Hblank|]. apply isspace_legal.
Qed.

Lemma blank_name_is_Sheet_witness :
  Forall (λ c, isspace c = true) (chars (splitext "   .csv").1) ∧
  sheet_base "   .csv" = "Sheet".
Proof.
  split; [by repeat constructor|].
  apply blank_name_is_Sheet. by repeat constructor.
Defined.

(** X3.  A file name [stem.ext] whose stem is already a valid title
    apart from its length (no illegal character, not only dots, no white
    space at either end) gets the first 31 characters of the stem as its
    title when they are not in use. *)
Theorem valid_stem_is_title stem ext a b (used : gset string) :
  Forall legal (chars stem) → all_dots stem = false →
  head (chars stem) = Some a → last (chars stem) = Some b →
  isspace a = false → isspace b = false →
  sep ∉ chars ext → extsep ∉ chars ext →
  take 31 stem ∉ used →
  sanitize_sheet_name (stem +:+ "." +:+ ext) used
  = Some (take 31 stem, {[take 31 stem]} ∪ used).
Proof.
  intros Hlegal Hdots Ha Hb Hsa Hsb Hsep Hdot Hfree.
  assert (sep ∉ chars stem) as Hstem.
  { intros Hin. rewrite Forall_forall in Hlegal. apply (Hlegal _ Hin).
    unfold sep. rewrite elem_of_ILLEGAL, !elem_of_cons. auto 10. }
  assert (sheet_base (stem +:+ "." +:+ ext) = take 31 stem) as Hbase.
  { unfold sheet_base.
    change (stem +:+ "." +:+ ext) with ("" +:+ stem +:+ "." +:+ ext).
    rewrite (splitext_dotted "" stem ext) by (done || by left).
    rewrite Hdots. cbn [fst]. rewrite app_nil_l. unfold clean_name.
    rewrite map_replace_illegal_legal by done.
    rewrite (strip_clean stem a b) by done.
    case_decide as Hempty; [|done].
    rewrite Hempty in Ha. done. }
  rewrite <-Hbase in *. by apply sanitize_free.
Qed.

Lemma valid_stem_is_title_witness :
  Forall legal (chars "Quarterly report 2024 - north and south regions") ∧
  all_dots "Quarterly report 2024 - north and south regions" = false ∧
  head (chars "Quarterly report 2024 - north and south regions") = Some "Q"%char ∧
  last (chars "Quarterly report 2024 - north and south regions") = Some "s"%char ∧
  isspace "Q" = false ∧ isspace "s" = false ∧
  (sep ∉ chars "csv") ∧ (extsep ∉ chars "csv") ∧
  (take 31 "Quarterly report 2024 - north and south regions" ∉ (∅ : gset string)) ∧
  sanitize_sheet_name ("Quarterly report 2024 - north and south regions" +:+ "." +:+ "csv") ∅
  = Some (take 31 "Quarterly report 2024 - north and south regions",
          {[take 31 "Quarterly report 2024 - north and south regions"]} ∪ ∅).
Proof.
  assert (Forall legal (chars "Quarterly report 2024 - north and south regions")) as H1.
  { apply Forall_forall. intros c Hc. unfold legal.
    rewrite elem_of_ILLEGAL. intros Hi.
    apply (bool_decide_pack _) in Hc. apply (bool_decide_pack _) in Hi.
    revert Hc Hi. unfold chars.
    destruct c as [[] [] [] [] [] [] [] []]; vm_compute; tauto. }
  assert (sep ∉ chars "csv") as H7 by (apply (bool_decide_unpack _); vm_compute; exact I).
  assert (extsep ∉ chars "csv") as H8 by (apply (bool_decide_unpack _); vm_compute; exact I).
  assert (take 31 "Quarterly report 2024 - north and south regions" ∉ (∅ : gset string))
    as H9 by apply not_elem_of_empty.
  repeat (split; [done|]).
  by apply (valid_stem_is_title _ _ "Q"%char "s"%char).
Defined.

(** X4.  A base of at most 11 characters is never cut to make room for
    the counter: when it is in use, in a set a Python process can hold,
    the title is the whole base followed by [_k]. *)
Theorem short_base_keeps_whole name (used : gset string) :
  (N.of_nat (size used) ≤ PY_SSIZE_T_MAX)%N →
  sheet_base name ∈ used →
  String.length (sheet_base name) ≤ 11 →
  ∃ k, (1 ≤ k)%N ∧
    sanitize_sheet_name name used
    = Some (sheet_base name +:+ "_" +:+ str k,
            {[sheet_base name +:+ "_" +:+ str k]} ∪ used).
Proof.
  intros Hcap Hin Hshort.
  destruct (sanitize_sheet_name_spec name used)
    as (t & Ht & _ & [[Hfree _]|[_ (k & Hk & -> & _)]]); [done|].
  exists k. split; [lia|].
  assert (k < 10 ^ N.of_nat 19)%N as Hk19.
  { unfold PY_SSIZE_T_MAX in Hcap. assert (2 ^ 63 < 10 ^ N.of_nat 19)%N by done. lia. }
  pose proof (str_length 19 k ltac:(lia) Hk19) as Hd.
  rewrite suffixed_unfold in Ht. rewrite slice_to_all in Ht; [done|].
  unfold MAX_SHEET_LEN. lia.
Qed.

Lemma short_base_keeps_whole_witness :
  (N.of_nat (size ({["sales"]} : gset string)) ≤ PY_SSIZE_T_MAX)%N ∧
  sheet_base "sales.csv" ∈ ({["sales"]} : gset string) ∧
  String.length (sheet_base "sales.csv") ≤ 11 ∧
  ∃ k, (1 ≤ k)%N ∧
    sanitize_sheet_name "sales.csv" {["sales"]}
    = Some (sheet_base "sales.csv" +:+ "_" +:+ str k,
            {[sheet_base "sales.csv" +:+ "_" +:+ str k]} ∪ {["sales"]}).
Proof.
  split; [by vm_compute|]. split; [by vm_compute|]. split; [vm_compute; lia|].
  apply short_base_keeps_whole; [by vm_compute..|vm_compute; lia].
Defined.

End SanitizerMore.

(** ** More on the file discoverer *)

Module DiscovererMore.
Import PyStr PyStrFacts OsPath OsPathFacts SortFacts.

Lemma leb_false_ne s1 s2 : String.leb s1 s2 = false → s2 ≠ s1.
Proof.
  intros Hf ->. pose proof (reflexivity (R := String.le) s1) as Hr.
  unfold String.le in Hr. by rewrite Hf in Hr.
Qed.

(** Inserting an element moves it past elements of other keys only. *)
Lemma insert_sorted_filter key x l k :
  filter (λ p, key p = k) (insert_sorted key x l)
  = filter (λ p, key p = k) (x :: l).
Proof.
  induction l as [|y l IH]; simpl; [done|].
  destruct (String.leb (key x) (key y)) eqn:Hxy; [done|].
  apply leb_false_ne in Hxy.
  rewrite (filter_cons _ y), IH, !(filter_cons _ x), (filter_cons _ y).
  repeat case_decide; congruence.
Qed.

Lemma sorted_filter key l k :
  filter (λ p, key p = k) (sorted key l) = filter (λ p, key p = k) l.
Proof.
  unfold sorted. induction l as [|x l IH]; simpl; [done|].
  rewrite insert_sorted_filter, !filter_cons, IH. done.
Qed.

Lemma find_csv_files_eq input_dir entries recursive :
  find_csv_files input_dir (Dir entries) recursive
  = Returned (sorted sort_key (listed input_dir entries recursive)).
Proof. by destruct recursive. Qed.

(** X5.  The sort is stable: the paths that have the same lowered base
    name come out in the order in which the directory listing, or the
    walk of the tree, gave them. *)
Theorem ties_keep_listing_order input_dir entries recursive k :
  ∃ files,
    find_csv_files input_dir (Dir entries) recursive = Returned files ∧
    filter (λ p, PyStr.lower (basename p) = k) files
    = filter (λ p, PyStr.lower (basename p) = k)
        (listed input_dir entries recursive).
Proof.
  eexists. split; [apply find_csv_files_eq|].
  apply (sorted_filter sort_key).
Qed.

Lemma take_drop n s : take n s +:+ drop n s = s.
Proof.
  revert s. induction n as [|n IH]; intros [|c s]; try done.
  simpl. rewrite app_cons. by rewrite IH.
Qed.

Lemma endswith_sep a : endswith a "/" = true → is_dir_prefix a.
Proof.
  unfold endswith. intros [_ Hd]%bool_decide_eq_true. right.
  exists (take (String.length a - String.length "/") a).
  rewrite <-(take_drop (String.length a - String.length "/") a) at 1.
  by rewrite Hd.
Qed.

Lemma startswith_sep fn : startswith fn "/" = true → sep ∈ chars fn.
Proof.
  unfold startswith. intros Ht%bool_decide_eq_true.
  destruct fn as [|c fn]; [done|]. simpl in Ht. destruct fn; simplify_eq/=;
    unfold chars; simpl; apply elem_of_cons; by left.
Qed.

(** The base name of a joined path is the name joined. *)
Lemma basename_join root fn : sep ∉ chars fn → basename (join root fn) = fn.
Proof.
  intros Hfn. unfold join.
  destruct (startswith fn "/") eqn:Hs.
  { by apply startswith_sep in Hs. }
  destruct (bool_decide (root = "") || endswith root "/") eqn:Hroot.
  - apply basename_app; [|done].
    apply orb_true_iff in Hroot as [Hr%bool_decide_eq_true|Hr]; [by left|].
    by apply endswith_sep.
  - rewrite <-app_assoc. apply basename_app; [|done]. right. by exists root.
Qed.

(** X6.  When no listed name has the separator in it, as is the case for
    the names a directory holds, every path returned has a base name that
    ends in [.csv] when lowered. *)
Theorem found_base_names_end_in_csv input_dir entries recursive files :
  find_csv_files input_dir (Dir entries) recursive = Returned files →
  (if recursive
   then ∀ t, t ∈ walk input_dir (Dir entries) → slash_free t.2
   else slash_free (entries.*1)) →
  ∀ p, p ∈ files → PyStr.endswith (PyStr.lower (basename p)) ".csv" = true.
Proof.
  rewrite find_csv_files_eq. intros [= <-] Hnames p Hp.
  rewrite sorted_perm in Hp.
  assert (∃ root names, slash_free names ∧ p ∈ csv_under root names)
    as (root & names & Hfree & Hin).
  { unfold listed in Hp. destruct recursive.
    - apply list_elem_of_In, in_flat_map in Hp as (t & Ht & Hp).
      exists t.1.1, t.2. split; [by apply Hnames, list_elem_of_In|].
      by apply list_elem_of_In.
    - by exists input_dir, (entries.*1). }
  unfold csv_under in Hin. apply list_elem_of_fmap in Hin as (fn & -> & Hfn).
  apply list_elem_of_In, filter_In in Hfn as [Hfn Hcsv].
  rewrite basename_join; [done|].
  unfold slash_free in Hfree. rewrite Forall_forall in Hfree.
  by apply Hfree, list_elem_of_In.
Qed.

Lemma found_base_names_end_in_csv_witness :
  find_csv_files "in" (Dir [("B.csv", File); ("notes.txt", File); ("a.CSV", File)]) false
  = Returned ["in/a.CSV"; "in/B.csv"] ∧
  slash_free ([("B.csv", File); ("notes.txt", File); ("a.CSV", File)].*1) ∧
  ∀ p, p ∈ ["in/a.CSV"; "in/B.csv"] →
       PyStr.endswith (PyStr.lower (basename p)) ".csv" = true.
Proof.
  assert (slash_free ([("B.csv", File); ("notes.txt", File); ("a.CSV", File)].*1)) as Hfree.
  { repeat constructor; apply (bool_decide_unpack _); vm_compute; exact I. }
  split; [by vm_compute|]. split; [exact Hfree|].
  apply (found_base_names_end_in_csv "in"
           [("B.csv", File); ("notes.txt", File); ("a.CSV", File)] false).
  - by vm_compute.
  - exact Hfree.
Defined.

End DiscovererMore.

(** ** More on the reader and the builder *)

Module BuilderMore.
Import PyStr PyStrFacts OsPath OsPathFacts BuilderFacts.

Lemma read_result_Yield w effects r rest :
  read_result w (Gen effects (Yield r rest))
  = match append_error w r with
    | Some e => ([], Some e)
    | None => (r :: (read_result w rest).1, (read_result w rest).2)
    end.
Proof. done. Qed.

Lemma read_events_Yield w ws effects r rest :
  read_events w ws (Gen effects (Yield r rest))
  = effects ++ match append_error w r with
               | Some _ => []
               | None => EvAppend ws r :: read_events w ws rest
               end.
Proof. done. Qed.

Lemma read_result_yield w effects rs failure :
  read_result w (Gen effects (yield_rows rs failure))
  = (accepted w rs, ending w rs failure).
Proof.
  revert effects. induction rs as [|r rs IH]; intros effects.
  - by destruct failure.
  - cbn [yield_rows accepted ending]. rewrite read_result_Yield, IH.
    by destruct (append_error w r).
Qed.

Lemma read_events_yield w ws effects rs failure :
  read_events w ws (Gen effects (yield_rows rs failure))
  = effects ++ (EvAppend ws <$> accepted w rs).
Proof.
  revert effects. induction rs as [|r rs IH]; intros effects.
  - by destruct failure.
  - cbn [yield_rows accepted]. rewrite read_events_Yield, IH.
    by destruct (append_error w r).
Qed.

Lemma accepted_prefix w rs : accepted w rs `prefix_of` rs.
Proof.
  induction rs as [|r rs IH]; simpl; [done|].
  destruct (append_error w r); [apply prefix_nil|]. by apply prefix_cons.
Qed.

Lemma accepted_all w rs :
  Forall (λ r, append_error w r = None) rs → accepted w rs = rs.
Proof.
  induction 1 as [|r rs Hr _ IH]; simpl; [done|]. by rewrite Hr, IH.
Qed.

(** The generator of a file that can be opened both times. *)
Lemma read_csv_rows_body_readable w csv_path encoding delimiter contents sniffing d f :
  read_binary w csv_path = inr contents →
  sniff_dialect w (list.take 4096 contents) delimiter = (sniffing, Returned d) →
  open_text w csv_path encoding = inr f →
  read_csv_rows_body w csv_path encoding delimiter
  = Gen (EvOpen csv_path "rb" :: sniffing ++ [EvOpen csv_path "r"])
        (yield_rows (csv_reader w f d).1 (csv_reader w f d).2).
Proof.
  intros Hb Hs Ho. unfold read_csv_rows_body. rewrite Hb, Hs, Ho.
  by destruct (csv_reader w f d).
Qed.

(** X7.  For a file that can be opened, the sheet gets the rows of the
    CSV reader, read with the dialect the sniffer returned, in the order
    of the reader, up to the first row [ws.append] raises on; it gets
    them all when [ws.append] raises on none, also when the reader itself
    fails after them. *)
Theorem sheet_holds_reader_rows w encoding delimiter verbose csv_path st
    contents sniffing d f :
  read_binary w csv_path = inr contents →
  sniff_dialect w (list.take 4096 contents) delimiter = (sniffing, Returned d) →
  open_text w csv_path encoding = inr f →
  ∃ t st',
    process_file w encoding delimiter verbose csv_path st = Some (Returned (), st') ∧
    wb st' = wb st ++ [{| title := t; rows := accepted w (csv_reader w f d).1 |}] ∧
    accepted w (csv_reader w f d).1 `prefix_of` (csv_reader w f d).1 ∧
    (Forall (λ r, append_error w r = None) (csv_reader w f d).1 →
     wb st' = wb st ++ [{| title := t; rows := (csv_reader w f d).1 |}]).
Proof.
  intros Hb Hs Ho.
  destruct (process_file_spec w encoding delimiter verbose csv_path st)
    as (t & _ & _ & Hp).
  unfold sheet_of in Hp.
  rewrite (read_csv_rows_body_readable _ _ _ _ _ _ _ _ Hb Hs Ho) in Hp.
  rewrite read_result_yield in Hp. cbn [fst] in Hp.
  eexists t, _. split; [exact Hp|]. split; [done|].
  split; [apply accepted_prefix|].
  intros Hall. simpl. by rewrite accepted_all.
Qed.

Lemma sheet_holds_reader_rows_witness :
  read_binary demo "in/a.csv" = inr [] ∧
  sniff_dialect demo (list.take 4096 []) None = ([EvSniff ""], Returned excel) ∧
  open_text demo "in/a.csv" "utf-8-sig" = inr "in/a.csv" ∧
  ∃ t st',
    process_file demo "utf-8-sig" None true "in/a.csv" initial
    = Some (Returned (), st') ∧
    wb st' = wb initial ++
      [{| title := t; rows := accepted demo (csv_reader demo "in/a.csv" excel).1 |}] ∧
    accepted demo (csv_reader demo "in/a.csv" excel).1
      `prefix_of` (csv_reader demo "in/a.csv" excel).1 ∧
    (Forall (λ r, append_error demo r = None) (csv_reader demo "in/a.csv" excel).1 →
     wb st' = wb initial ++
       [{| title := t; rows := (csv_reader demo "in/a.csv" excel).1 |}]).
Proof.
  split; [reflexivity|]. split; [reflexivity|]. split; [reflexivity|].
  by apply (sheet_holds_reader_rows demo "utf-8-sig" None true "in/a.csv" initial
              [] [EvSniff ""] excel "in/a.csv").
Defined.

(** The events of a reading are openings of the file, calls of the
    sniffer and appended rows. *)
Lemma read_events_Forall (P : event → Prop) w ws csv_path encoding delimiter :
  (∀ path mode, P (EvOpen path mode)) → (∀ i r, P (EvAppend i r)) →
  (∀ sample, Forall P (sniff_dialect w sample delimiter).1) →
  Forall P (read_events w ws (read_csv_rows_body w csv_path encoding delimiter)).
Proof.
  intros Hopen Happ Hsniff. unfold read_csv_rows_body.
  destruct (read_binary w csv_path) as [e|contents].
  { simpl. by repeat constructor. }
  specialize (Hsniff (list.take 4096 contents)).
  destruct (sniff_dialect w (list.take 4096 contents) delimiter) as [sniffing [d|e]].
  - assert (Forall P (EvOpen csv_path "rb" :: sniffing ++ [EvOpen csv_path "r"])) as Hpre.
    { constructor; [done|]. apply Forall_app. split; [done|]. by repeat constructor. }
    destruct (open_text w csv_path encoding) as [e|f].
    { simpl read_events. by rewrite app_nil_r. }
    destruct (csv_reader w f d) as [rs failure].
    rewrite read_events_yield. apply Forall_app. split; [done|].
    apply Forall_fmap, Forall_true. intros r. apply Happ.
  - simpl read_events. rewrite app_nil_r. by constructor.
Qed.

(** The events of the loop over the files have every property that the
    events of each turn have. *)
Lemma for_each_files_log (P : event → Prop) w encoding delimiter verbose :
  (∀ ws t csv_path, Forall P (file_events w encoding delimiter verbose ws t csv_path)) →
  ∀ files st, ∃ ts st' evs,
    sanitize_all (basename <$> files) (used_names st) = Some (ts, used_names st') ∧
    for_each files (process_file w encoding delimiter verbose) st
    = Some (Returned (), st') ∧
    wb st' = wb st ++ zip_with (sheet_of w encoding delimiter) ts files ∧
    log st' = log st ++ evs ∧ Forall P evs.
Proof.
  intros HP files. induction files as [|p files IH]; intros st.
  - exists [], st, []. simpl. by rewrite !app_nil_r.
  - destruct (process_file_spec w encoding delimiter verbose p st)
      as (t & Ht & _ & Hp).
    set (st1 := {| wb := _; used_names := _; log := _ |}) in Hp.
    destruct (IH st1) as (ts & st' & evs & Hts & Hloop & Hwb & Hlog & Hevs).
    exists (t :: ts), st',
      (file_events w encoding delimiter verbose (length (wb st)) t p ++ evs).
    rewrite fmap_cons, sanitize_all_cons, Ht.
    change (used_names st1) with ({[t]} ∪ used_names st) in Hts. rewrite Hts.
    split; [done|]. split.
    { rewrite for_each_cons. unfold bind. rewrite Hp. exact Hloop. }
    split.
    { rewrite Hwb. subst st1. simpl. by rewrite <-List.app_assoc. }
    split.
    { rewrite Hlog. subst st1. simpl. by rewrite <-List.app_assoc. }
    apply Forall_app. split; [apply HP|done].
Qed.

(** A run on a list of files that is not empty: the loop, and then the
    making of the directory and the saving. *)
Lemma combine_run (P : event → Prop) w input_dir output_path encoding delimiter
    recursive verbose p files :
  (∀ ws t csv_path, Forall P (file_events w encoding delimiter verbose ws t csv_path)) →
  find_csv_files input_dir (tree w) recursive = Returned (p :: files) →
  ∃ ts st1,
    sanitize_all (basename <$> p :: files) ∅ = Some (ts, used_names st1) ∧
    wb st1 = zip_with (sheet_of w encoding delimiter) ts (p :: files) ∧
    Forall P (log st1) ∧
    combine_csvs_to_excel w input_dir output_path encoding delimiter recursive
      verbose initial
    = Some ((finish w output_path verbose).2,
            logged st1 (finish w output_path verbose).1).
Proof.
  intros HP Hfind.
  destruct (for_each_files_log P w encoding delimiter verbose HP (p :: files) initial)
    as (ts & st1 & evs & Hts & Hloop & Hwb & Hlog & Hevs).
  exists ts, st1. split; [done|]. split; [done|].
  split; [by rewrite Hlog|].
  rewrite (BuilderClaims.combine_eq _ _ _ _ _ _ _ p files) by done.
  unfold bind at 1. rewrite Hloop.
  unfold finish, bind at 1, makedirs, bind at 1, emit. simpl.
  destruct (makedirs_error w (outdir_of w output_path)) as [e|]; simpl; [done|].
  unfold bind at 1, save, bind at 1, emit. simpl.
  destruct (save_error w output_path) as [e|]; simpl.
  - unfold logged. simpl. by rewrite <-List.app_assoc.
  - rewrite print_if_eq. unfold logged. simpl.
    by rewrite <-!List.app_assoc.
Qed.

Lemma file_events_Forall (P : event → Prop) w encoding delimiter verbose :
  (∀ t, P (EvCreateSheet t)) → (verbose = true → ∀ line, P (EvPrint line)) →
  (∀ path mode, P (EvOpen path mode)) → (∀ i r, P (EvAppend i r)) →
  (∀ sample, Forall P (sniff_dialect w sample delimiter).1) →
  ∀ ws t csv_path, Forall P (file_events w encoding delimiter verbose ws t csv_path).
Proof.
  intros Hsheet Hprint Hopen Happ Hsniff ws t csv_path. unfold file_events.
  constructor; [done|]. apply Forall_app. split.
  { destruct verbose; [|done]. constructor; [by apply Hprint|done]. }
  apply Forall_app. split; [by apply read_events_Forall|].
  destruct (read_result w _).2; [|done].
  destruct verbose; [|done]. constructor; [by apply Hprint|done].
Qed.

(** The events of a whole run have every property that the events it
    can perform have. *)
Lemma combine_log_Forall (P : event → Prop) w input_dir output_path encoding
    delimiter recursive verbose o st' :
  (∀ t, P (EvCreateSheet t)) → (verbose = true → ∀ line, P (EvPrint line)) →
  (∀ path mode, P (EvOpen path mode)) → (∀ i r, P (EvAppend i r)) →
  (∀ sample, Forall P (sniff_dialect w sample delimiter).1) →
  (∀ dir, P (EvMakedirs dir)) → (∀ path, P (EvSave path)) →
  combine_csvs_to_excel w input_dir output_path encoding delimiter recursive
    verbose initial = Some (o, st') →
  Forall P (log st').
Proof.
  intros Hsheet Hprint Hopen Happ Hsniff Hmk Hsave Hrun.
  destruct (find_csv_files input_dir (tree w) recursive) as [[|p files]|e] eqn:Hfind.
  - unfold combine_csvs_to_excel, bind, lift, raise, ret in Hrun.
    rewrite Hfind in Hrun. simplify_eq/=. constructor.
  - destruct (combine_run P w input_dir output_path encoding delimiter recursive
                verbose p files) as (ts & st1 & _ & _ & Hlog & Heq);
      [by apply file_events_Forall|done|].
    rewrite Heq in Hrun. injection Hrun as <- <-. simpl.
    apply Forall_app. split; [done|]. unfold finish.
    destruct (makedirs_error w _); [by repeat constructor|].
    destruct (save_error w _); [by repeat constructor|].
    simpl. constructor; [done|]. constructor; [done|].
    destruct verbose; [|done]. constructor; [by apply Hprint|done].
  - unfold combine_csvs_to_excel, bind, lift, raise, ret in Hrun.
    rewrite Hfind in Hrun. simplify_eq/=. constructor.
Qed.

(** X8.  With an override that is not the empty string, a run never
    calls the sniffer, however it ends. *)
Theorem override_run_never_sniffs w input_dir output_path encoding d recursive
    verbose o st' :
  d ≠ "" →
  combine_csvs_to_excel w input_dir output_path encoding (Some d) recursive
    verbose initial = Some (o, st') →
  Forall (λ ev, is_sniff ev = false) (log st').
Proof.
  intros Hd. apply combine_log_Forall; try done.
  intros sample. by destruct d.
Qed.

Lemma override_run_never_sniffs_witness :
  ";" ≠ "" ∧
  ∃ st', combine_csvs_to_excel demo "in" "out/all.xlsx" "utf-8-sig" (Some ";")
           false true initial = Some (Returned (), st') ∧
    Forall (λ ev, is_sniff ev = false) (log st').
Proof.
  split; [done|].
  destruct (combine_csvs_to_excel demo "in" "out/all.xlsx" "utf-8-sig" (Some ";")
              false true initial) as [[o st']|] eqn:Hrun; [|by vm_compute in Hrun].
  assert (o = Returned ()) as ->.
  { vm_compute in Hrun. by injection Hrun as <- _. }
  exists st'. split; [done|].
  by apply (override_run_never_sniffs demo "in" "out/all.xlsx" "utf-8-sig" ";"
              false true (Returned ()) st').
Defined.

(** X9.  A quiet run prints nothing, however it ends: no progress line,
    no warning for a file that fails, no closing line. *)
Theorem quiet_run_prints_nothing w input_dir output_path encoding delimiter
    recursive o st' :
  combine_csvs_to_excel w input_dir output_path encoding delimiter recursive
    false initial = Some (o, st') →
  Forall (λ ev, is_print ev = false) (log st').
Proof.
  apply combine_log_Forall; try done.
  intros sample. unfold sniff_dialect.
  destruct (truthy delimiter); by repeat constructor.
Qed.

Lemma quiet_run_prints_nothing_witness :
  ∃ st', combine_csvs_to_excel demo "in" "out/all.xlsx" "utf-8-sig" None
           false false initial = Some (Returned (), st') ∧
    Forall (λ ev, is_print ev = false) (log st').
Proof.
  destruct (combine_csvs_to_excel demo "in" "out/all.xlsx" "utf-8-sig" None
              false false initial) as [[o st']|] eqn:Hrun; [|by vm_compute in Hrun].
  assert (o = Returned ()) as ->.
  { vm_compute in Hrun. by injection Hrun as <- _. }
  exists st'. split; [done|].
  by apply (quiet_run_prints_nothing demo "in" "out/all.xlsx" "utf-8-sig" None
              false (Returned ()) st').
Defined.

Lemma length_zip_sheets w encoding delimiter ts files :
  length ts = length files →
  length (zip_with (sheet_of w encoding delimiter) ts files) = length files.
Proof. intros Hlen. rewrite length_zip_with. lia. Qed.

(** X10.  When there are files, the loop performs neither the making of
    the output directory nor the saving.  After it the directory is made,
    and an exception there ends the run before any saving; otherwise the
    workbook is saved once, right after, and an exception of the saving
    ends the run; only the closing line can follow. *)
Theorem output_written_once w input_dir output_path encoding delimiter recursive
    verbose p files :
  find_csv_files input_dir (tree w) recursive = Returned (p :: files) →
  ∃ o st' evs,
    combine_csvs_to_excel w input_dir output_path encoding delimiter recursive
      verbose initial = Some (o, st') ∧
    Forall (λ ev, is_save ev = false ∧ is_makedirs ev = false) evs ∧
    match makedirs_error w (outdir_of w output_path) with
    | Some e =>
        o = Raised e ∧ log st' = evs ++ [EvMakedirs (outdir_of w output_path)]
    | None =>
        ∃ closing,
          log st' = evs ++ [EvMakedirs (outdir_of w output_path); EvSave output_path]
                    ++ closing ∧
          match save_error w output_path with
          | Some e => o = Raised e ∧ closing = []
          | None =>
              o = Returned () ∧
              closing = if verbose
                        then [EvPrint ("Wrote Excel workbook: " +:+ output_path)]
                        else []
          end
    end.
Proof.
  intros Hfind.
  destruct (combine_run (λ ev, is_save ev = false ∧ is_makedirs ev = false)
              w input_dir output_path encoding delimiter recursive verbose p files)
    as (ts & st1 & _ & _ & Hlog & Heq); [|done|].
  { apply file_events_Forall; try done.
    intros sample. unfold sniff_dialect.
    destruct (truthy delimiter); by repeat constructor. }
  eexists _, _, (log st1). split; [exact Heq|]. split; [done|].
  unfold finish.
  destruct (makedirs_error w _); [done|].
  destruct (save_error w _); eexists; by split.
Qed.

Lemma output_written_once_witness :
  find_csv_files "in" (tree demo) false = Returned ["in/a.csv"; "in/B.csv"; "in/C.CSV"] ∧
  ∃ o st' evs,
    combine_csvs_to_excel demo "in" "out/all.xlsx" "utf-8-sig" None false
      true initial = Some (o, st') ∧
    Forall (λ ev, is_save ev = false ∧ is_makedirs ev = false) evs ∧
    match makedirs_error demo (outdir_of demo "out/all.xlsx") with
    | Some e =>
        o = Raised e ∧ log st' = evs ++ [EvMakedirs (outdir_of demo "out/all.xlsx")]
    | None =>
        ∃ closing,
          log st' = evs ++ [EvMakedirs (outdir_of demo "out/all.xlsx");
                            EvSave "out/all.xlsx"]
                    ++ closing ∧
          match save_error demo "out/all.xlsx" with
          | Some e => o = Raised e ∧ closing = []
          | None =>
              o = Returned () ∧
              closing = if true
                        then [EvPrint ("Wrote Excel workbook: " +:+ "out/all.xlsx")]
                        else []
          end
    end.
Proof.
  split; [by vm_compute|].
  apply (output_written_once demo "in" "out/all.xlsx" "utf-8-sig" None false true
           "in/a.csv" ["in/B.csv"; "in/C.CSV"]).
  by vm_compute.
Defined.

Lemma filter_none {A} (f : A → bool) l :
  Forall (λ x, f x = false) l → List.filter f l = [].
Proof. induction 1 as [|x l Hx _ IH]; simpl; [done|]. by rewrite Hx. Qed.

Lemma flat_map_nil {A B} (f : A → list B) l :
  (∀ x, x ∈ l → f x = []) → flat_map f l = [].
Proof.
  induction l as [|x l IH]; intros Hf; simpl; [done|].
  rewrite Hf by (by left). rewrite IH; [done|].
  intros y Hy. apply Hf. by right.
Qed.

(** X11.  When no listed name ends in [.csv] when lowered, and so for an
    empty directory, the run raises [FileNotFoundError] and performs
    nothing: no sheet, no directory, no file. *)
Theorem no_input_raises_before_any_output w input_dir output_path encoding
    delimiter (recursive verbose : bool) entries st :
  tree w = Dir entries →
  (if recursive
   then ∀ t, t ∈ walk input_dir (Dir entries) →
             Forall (λ fn, is_csv fn = false) t.2
   else Forall (λ fn, is_csv fn = false) (entries.*1)) →
  combine_csvs_to_excel w input_dir output_path encoding delimiter recursive
    verbose st
  = Some (Raised (Exception "FileNotFoundError"
                    ("No CSV files found in: " +:+ input_dir)), st).
Proof.
  intros Htree Hnone.
  assert (find_csv_files input_dir (tree w) recursive = Returned []) as Hfind.
  { rewrite Htree, DiscovererMore.find_csv_files_eq. f_equal.
    assert (listed input_dir entries recursive = []) as ->; [|done].
    unfold listed. destruct recursive.
    - apply flat_map_nil. intros t Ht. unfold csv_under.
      by rewrite filter_none by by apply Hnone.
    - unfold csv_under. by rewrite filter_none. }
  unfold combine_csvs_to_excel, bind, lift. by rewrite Hfind.
Qed.

Lemma no_input_raises_before_any_output_witness :
  tree demo_no_csv = Dir [("notes.txt", File); ("data.csv.bak", File)] ∧
  Forall (λ fn, is_csv fn = false) ([("notes.txt", File); ("data.csv.bak", File)].*1) ∧
  combine_csvs_to_excel demo_no_csv "in" "out/all.xlsx" "utf-8-sig" None false true
    initial
  = Some (Raised (Exception "FileNotFoundError"
                    ("No CSV files found in: " +:+ "in")), initial).
Proof.
  split; [done|]. split; [by repeat constructor|].
  by apply (no_input_raises_before_any_output demo_no_csv "in" "out/all.xlsx"
              "utf-8-sig" None false true
              [("notes.txt", File); ("data.csv.bak", File)] initial);
    [|repeat constructor].
Defined.



End BuilderMore.

(** ** The front end *)

Module MainMore.
Import PyStr PyStrFacts OsPath BuilderFacts BuilderMore.

(** X13.  When the input path is not a directory, [main] raises
    [NotADirectoryError] and performs nothing.  Without that check the
    builder would report it in two ways: in recursive mode as no CSV file
    found, since the walk of a non-directory yields nothing, and otherwise
    with the exception of the listing. *)
Theorem main_guards_the_directory w args st :
  tree w = File →
  main w args st
  = Some (Raised (Exception "NotADirectoryError"
                    ("Not a directory: " +:+ arg_input_dir args)), st) ∧
  (∀ input_dir output_path encoding delimiter verbose,
     combine_csvs_to_excel w input_dir output_path encoding delimiter true verbose st
     = Some (Raised (Exception "FileNotFoundError"
                       ("No CSV files found in: " +:+ input_dir)), st)) ∧
  (∀ input_dir output_path encoding delimiter verbose,
     ∃ e, listdir (tree w) = Raised e ∧
       combine_csvs_to_excel w input_dir output_path encoding delimiter false
         verbose st = Some (Raised e, st)).
Proof.
  intros Htree. split; [|split].
  - unfold main. by rewrite Htree.
  - intros. unfold combine_csvs_to_excel, bind, lift. by rewrite Htree.
  - intros. eexists. rewrite Htree. split; [done|].
    unfold combine_csvs_to_excel, bind, lift. by rewrite Htree.
Qed.

Lemma main_guards_the_directory_witness :
  tree demo_not_dir = File ∧
  main demo_not_dir (demo_args None) initial
  = Some (Raised (Exception "NotADirectoryError"
                    ("Not a directory: " +:+ arg_input_dir (demo_args None))), initial) ∧
  (∀ input_dir output_path encoding delimiter verbose,
     combine_csvs_to_excel demo_not_dir input_dir output_path encoding delimiter true
       verbose initial
     = Some (Raised (Exception "FileNotFoundError"
                       ("No CSV files found in: " +:+ input_dir)), initial)) ∧
  (∀ input_dir output_path encoding delimiter verbose,
     ∃ e, listdir (tree demo_not_dir) = Raised e ∧
       combine_csvs_to_excel demo_not_dir input_dir output_path encoding delimiter
         false verbose initial = Some (Raised e, initial)).
Proof.
  split; [done|].
  by apply (main_guards_the_directory demo_not_dir (demo_args None) initial).
Defined.

Lemma cli_delimiter_tab d : PyStr.lower d = "\t" → cli_delimiter (Some d) = Some tab.
Proof.
  intros Hd. unfold cli_delimiter.
  destruct d as [|c d]; [done|]. simpl. by rewrite decide_True.
Qed.

Lemma main_on_directory w args :
  is_dir (tree w) = true →
  main w args
  = combine_csvs_to_excel w (arg_input_dir args) (arg_output args)
      (arg_encoding args) (cli_delimiter (arg_delimiter args))
      (arg_recursive args) (negb (arg_quiet args)).
Proof. intros Hdir. unfold main. by rewrite Hdir. Qed.

(** X14.  The escape for the tab, a backslash and [t] in either case,
    reaches the CSV reader as the tab: when the CSV module accepts the
    tab as a delimiter, every file that can be opened is read with the
    comma dialect whose delimiter is the tab, and without sniffing. *)
Theorem tab_escape_reaches_reader w args d :
  arg_delimiter args = Some d → PyStr.lower d = "\t" →
  is_dir (tree w) = true → delimiter_error w "009"%char = None →
  main w args
  = combine_csvs_to_excel w (arg_input_dir args) (arg_output args)
      (arg_encoding args) (Some tab) (arg_recursive args) (negb (arg_quiet args)) ∧
  ∀ csv_path contents f st,
    read_binary w csv_path = inr contents →
    open_text w csv_path (arg_encoding args) = inr f →
    ∃ t st',
      process_file w (arg_encoding args) (Some tab) (negb (arg_quiet args))
        csv_path st = Some (Returned (), st') ∧
      wb st' = wb st ++
        [{| title := t;
            rows := accepted w (csv_reader w f (with_delimiter tab)).1 |}] ∧
      Forall (λ ev, is_sniff ev = false) (list.drop (length (log st)) (log st')).
Proof.
  intros Harg Hd Hdir Hok. split.
  - rewrite main_on_directory by done. by rewrite Harg, cli_delimiter_tab.
  - intros csv_path contents f st Hb Ho.
    assert (sniff_dialect w (list.take 4096 contents) (Some tab)
            = ([], Returned (with_delimiter tab))) as Hs.
    { unfold sniff_dialect. simpl. by rewrite Hok. }
    destruct (process_file_spec w (arg_encoding args) (Some tab)
                (negb (arg_quiet args)) csv_path st) as (t & _ & _ & Hp).
    eexists t, _. split; [exact Hp|]. split.
    + simpl. unfold sheet_of.
      rewrite (read_csv_rows_body_readable _ _ _ _ _ _ _ _ Hb Hs Ho).
      by rewrite read_result_yield.
    + simpl. rewrite drop_app_length.
      by apply file_events_Forall.
Qed.

Lemma tab_escape_reaches_reader_witness :
  arg_delimiter (demo_args (Some "\T")) = Some "\T" ∧ PyStr.lower "\T" = "\t" ∧
  is_dir (tree demo) = true ∧ delimiter_error demo "009"%char = None ∧
  main demo (demo_args (Some "\T"))
  = combine_csvs_to_excel demo (arg_input_dir (demo_args (Some "\T")))
      (arg_output (demo_args (Some "\T")))
      (arg_encoding (demo_args (Some "\T"))) (Some tab)
      (arg_recursive (demo_args (Some "\T")))
      (negb (arg_quiet (demo_args (Some "\T")))) ∧
  ∀ csv_path contents f st,
    read_binary demo csv_path = inr contents →
    open_text demo csv_path (arg_encoding (demo_args (Some "\T"))) = inr f →
    ∃ t st',
      process_file demo (arg_encoding (demo_args (Some "\T"))) (Some tab)
        (negb (arg_quiet (demo_args (Some "\T"))))
        csv_path st = Some (Returned (), st') ∧
      wb st' = wb st ++
        [{| title := t;
            rows := accepted demo (csv_reader demo f (with_delimiter tab)).1 |}] ∧
      Forall (λ ev, is_sniff ev = false) (list.drop (length (log st)) (log st')).
Proof.
  split; [done|]. split; [by vm_compute|]. split; [done|]. split; [done|].
  by apply (tab_escape_reaches_reader demo (demo_args (Some "\T")) "\T").
Defined.

Lemma rows_of_long_override w encoding c c' s t csv_path :
  rows (sheet_of w encoding (Some (String c (String c' s))) t csv_path) = [].
Proof.
  unfold sheet_of, read_csv_rows_body. simpl.
  destruct (read_binary w csv_path); [done|].
  unfold sniff_dialect. simpl. done.
Qed.

(** X15.  A delimiter of two characters or more, other than the escape
    for the tab, does not stop the run: every file fails in its own turn,
    and when the directory can be made and the workbook saved, [main]
    returns after saving a workbook that has one sheet for each file and
    no row in any of them. *)
Theorem long_delimiter_gives_empty_sheets w args c c' s p files :
  arg_delimiter args = Some (String c (String c' s)) →
  PyStr.lower (String c (String c' s)) ≠ "\t" →
  is_dir (tree w) = true →
  find_csv_files (arg_input_dir args) (tree w) (arg_recursive args)
  = Returned (p :: files) →
  makedirs_error w (outdir_of w (arg_output args)) = None →
  save_error w (arg_output args) = None →
  ∃ st', main w args initial = Some (Returned (), st') ∧
    length (wb st') = S (length files) ∧
    Forall (λ sheet, rows sheet = []) (wb st') ∧
    EvSave (arg_output args) ∈ log st'.
Proof.
  intros Harg Hd Hdir Hfind Hmk Hsave.
  rewrite main_on_directory by done. rewrite Harg.
  assert (cli_delimiter (Some (String c (String c' s)))
          = Some (String c (String c' s))) as ->.
  { unfold cli_delimiter. simpl. by rewrite decide_False. }
  destruct (combine_run (λ _, True) w (arg_input_dir args) (arg_output args)
              (arg_encoding args) (Some (String c (String c' s)))
              (arg_recursive args) (negb (arg_quiet args)) p files)
    as (ts & st1 & Hts & Hwb & _ & Heq); [|done|].
  { intros. by apply Forall_true. }
  rewrite Heq. unfold finish. rewrite Hmk, Hsave. simpl.
  eexists. split; [done|]. simpl.
  destruct (sanitize_all_spec (basename <$> p :: files) ∅)
    as (ts' & Hts' & Hlen & _).
  rewrite Hts in Hts'. injection Hts' as <- _. rewrite length_fmap in Hlen.
  split; [|split].
  - rewrite Hwb. by apply length_zip_sheets.
  - rewrite Hwb. apply Forall_forall. intros sheet Hin.
    apply list_elem_of_lookup in Hin as [j Hj].
    rewrite lookup_zip_with in Hj.
    destruct (ts !! j) as [t|]; [|done]. simpl in Hj.
    destruct ((p :: files) !! j) as [q|]; [|done]. simpl in Hj.
    injection Hj as <-. apply rows_of_long_override.
  - rewrite !elem_of_app, !elem_of_cons. auto.
Qed.

Lemma long_delimiter_gives_empty_sheets_witness :
  arg_delimiter (demo_args (Some ";;")) = Some ";;" ∧
  PyStr.lower ";;" ≠ "\t" ∧
  is_dir (tree demo) = true ∧
  find_csv_files (arg_input_dir (demo_args (Some ";;"))) (tree demo)
    (arg_recursive (demo_args (Some ";;")))
  = Returned ["in/a.csv"; "in/B.csv"; "in/C.CSV"] ∧
  makedirs_error demo (outdir_of demo (arg_output (demo_args (Some ";;")))) = None ∧
  save_error demo (arg_output (demo_args (Some ";;"))) = None ∧
  ∃ st', main demo (demo_args (Some ";;")) initial = Some (Returned (), st') ∧
    length (wb st') = S (length ["in/B.csv"; "in/C.CSV"]) ∧
    Forall (λ sheet, rows sheet = []) (wb st') ∧
    EvSave (arg_output (demo_args (Some ";;"))) ∈ log st'.
Proof.
  split; [done|]. split; [by vm_compute|]. split; [done|].
  split; [by vm_compute|]. split; [done|]. split; [done|].
  apply (long_delimiter_gives_empty_sheets demo (demo_args (Some ";;"))
           ";"%char ";"%char "" "in/a.csv" ["in/B.csv"; "in/C.CSV"]);
    try done; by vm_compute.
Defined.

End MainMore.

(** ** Titles of a whole run, and the kinds of the entries *)

Module RunMore.
Import PyStr PyStrFacts SanitizerFacts LoopFacts OsPath BuilderFacts SortFacts
  BuilderMore.





(** X17.  Without the recursive flag the kind of an entry is not looked
    at: every entry of the directory whose name ends in [.csv] when
    lowered is returned, a subdirectory too; with the flag, every such
    entry that is not a directory is returned. *)
Theorem nonrecursive_lists_any_kind input_dir entries fn n :
  (fn, n) ∈ entries → is_csv fn = true →
  (∃ files, find_csv_files input_dir (Dir entries) false = Returned files ∧
     join input_dir fn ∈ files) ∧
  (n = File →
   ∃ files, find_csv_files input_dir (Dir entries) true = Returned files ∧
     join input_dir fn ∈ files).
Proof.
  intros Hin Hcsv. split.
  - eexists. split; [done|]. rewrite sorted_perm.
    unfold csv_under. apply list_elem_of_fmap. exists fn. split; [done|].
    apply list_elem_of_In, filter_In. split; [|done].
    apply list_elem_of_In, list_elem_of_fmap. by exists (fn, n).
  - intros ->. eexists. split; [done|]. rewrite sorted_perm.
    simpl. apply elem_of_app. left.
    unfold csv_under. apply list_elem_of_fmap. exists fn. split; [done|].
    apply list_elem_of_In, filter_In. split; [|done].
    apply list_elem_of_In, list_elem_of_fmap. exists (fn, File). split; [done|].
    apply list_elem_of_In, filter_In. split; [by apply list_elem_of_In|done].
Qed.

Lemma nonrecursive_lists_any_kind_witness :
  ("old.csv", Dir [("x.csv", File)]) ∈ [("a.csv", File); ("old.csv", Dir [("x.csv", File)])] ∧
  is_csv "old.csv" = true ∧
  (∃ files, find_csv_files "in" (Dir [("a.csv", File); ("old.csv", Dir [("x.csv", File)])])
              false = Returned files ∧
     join "in" "old.csv" ∈ files) ∧
  (Dir [("x.csv", File)] = File →
   ∃ files, find_csv_files "in" (Dir [("a.csv", File); ("old.csv", Dir [("x.csv", File)])])
              true = Returned files ∧
     join "in" "old.csv" ∈ files).
Proof.
  assert (("old.csv", Dir [("x.csv", File)])
          ∈ [("a.csv", File); ("old.csv", Dir [("x.csv", File)])]) as Hin.
  { apply elem_of_cons. right. apply elem_of_cons. by left. }
  split; [exact Hin|]. split; [by vm_compute|].
  apply (nonrecursive_lists_any_kind "in" _ "old.csv" _ Hin). by vm_compute.
Defined.

End RunMore.
